(** * CepheidSitemap: the PDF scraper and Google Drive sync script

    A shallow embedding of [Python Script/Scraper.py].  The script talks to
    three outside parties: the web site (through [requests]), the local
    staging directory (through [open] and [os.remove]) and a Google Drive
    folder (through the Drive v3 client).  Their answers are gathered in an
    environment record, their state in a state record, and every function of
    the script becomes a computation in a state-and-exception monad in which a
    Python exception leaves the side effects already performed in place. *)

From Stdlib Require Import ZArith String Ascii List Bool Lia.
From stdpp Require Import base decidable list sets gmap strings.

Import ListNotations.
Local Open Scope string_scope.
Set Warnings "-clear-no-such-hyp".

(** ** Strings *)

Module Str.

(** [s.startswith(p)] *)
Fixpoint starts_with (p s : string) : bool :=
  match p, s with
  | EmptyString, _ => true
  | String a p', String b s' => if Ascii.eqb a b then starts_with p' s' else false
  | String _ _, EmptyString => false
  end.

(** [sub in s] on Python strings *)
Fixpoint contains (sub s : string) : bool :=
  if starts_with sub s then true
  else match s with
       | EmptyString => false
       | String _ s' => contains sub s'
       end.

Definition lower_char (c : ascii) : ascii :=
  let n := nat_of_ascii c in
  if (65 <=? n)%nat && (n <=? 90)%nat then ascii_of_nat (n + 32) else c.

(** [s.lower()], on the ASCII letters *)
Fixpoint lower (s : string) : string :=
  match s with
  | EmptyString => EmptyString
  | String c s' => String (lower_char c) (lower s')
  end.

Definition is_slash (c : ascii) : bool := Ascii.eqb c "/"%char.

(** [s[s.rfind('/') + 1:]]: [cand] is the text after the last slash seen
    so far. *)
Fixpoint after_last_slash (cand s : string) : string :=
  match s with
  | EmptyString => cand
  | String c s' => after_last_slash (if is_slash c then s' else cand) s'
  end.

Fixpoint has_slash (s : string) : bool :=
  match s with
  | EmptyString => false
  | String c s' => is_slash c || has_slash s'
  end.

(** [s.split(c, 1)[0]]: the text before the first occurrence of [c] *)
Fixpoint before_char (c : ascii) (s : string) : string :=
  match s with
  | EmptyString => EmptyString
  | String a s' => if Ascii.eqb a c then EmptyString else String a (before_char c s')
  end.

(** the text from the first occurrence of [sub] on, [sub] itself dropped *)
Fixpoint after_first (sub s : string) : option string :=
  if starts_with sub s then Some (substring (String.length sub) (String.length s) s)
  else match s with
       | EmptyString => None
       | String _ s' => after_first sub s'
       end.

(** the text from the first slash on (the slash kept) *)
Fixpoint from_slash (s : string) : string :=
  match s with
  | EmptyString => EmptyString
  | String c s' => if is_slash c then s else from_slash s'
  end.

End Str.

(** ** [os.path] *)

Module OsPath.

(** [os.path.basename(p)] (posixpath): everything after the last slash. *)
Definition basename (p : string) : string := Str.after_last_slash p p.

Definition ends_with_slash (a : string) : bool :=
  match get (String.length a - 1) a with
  | Some c => Str.is_slash c
  | None => false
  end.

(** [os.path.join(a, b)] (posixpath, two components) *)
Definition join (a b : string) : string :=
  if Str.starts_with "/" b then b
  else if (String.length a =? 0)%nat || ends_with_slash a then a ++ b
  else a ++ "/" ++ b.

End OsPath.

(** ** URLs, as the specification speaks of them *)

Module Url.

(** Follows the specification: "the URL's final path segment".  The path of
    a URL is what is left once the fragment (from the first [#]), the query
    (from the first [?]) and the scheme and authority ([scheme://host]) are
    taken away; its final segment is the text after its last slash. *)
Definition path (url : string) : string :=
  let no_fragment := Str.before_char "#"%char url in
  let no_query := Str.before_char "?"%char no_fragment in
  match Str.after_first "://" no_query with
  | Some rest => Str.from_slash rest
  | None => no_query
  end.

Definition final_path_segment (url : string) : string :=
  Str.after_last_slash (path url) (path url).

End Url.

(** ** The outside world *)

(** The exceptions the script meets.  [except Exception] catches all of them. *)
Inductive Exn : Type :=
| ConnectionError   (* requests: the resource is unreachable *)
| ParseError        (* xml.etree: the content is not well-formed XML *)
| TypeError         (* [in] applied to [None] *)
| ValueError        (* urljoin on a malformed reference *)
| OSError           (* open, os.remove, MediaFileUpload *)
| HttpError         (* googleapiclient: Drive rejects the request *)
| AuthError.        (* the OAuth flow fails *)

Inductive Result (A : Type) : Type :=
| Ok (a : A)
| Raise (x : Exn).
Arguments Ok {A} a.
Arguments Raise {A} x.

(** What the parsers of the script see in the body of an HTTP response. *)
Record Body : Type := {
  (* [ET.fromstring(content)] followed by [elem.text] of every
     [{http://www.sitemaps.org/schemas/sitemap/0.9}loc] element, in document
     order; [None] at the top when the content is not well-formed, [None]
     in the list for a [loc] element without text *)
  xml_locs : option (list (option string));
  (* [a["href"]] for [soup.find_all("a", href=True)] *)
  hrefs : list string;
  (* [tag["src"]] for [soup.find_all(["iframe", "embed"], src=True)] *)
  srcs : list string;
  (* [iter_content] delivers every chunk *)
  streams : bool
}.

Record Response : Type := { status_code : Z; content : Body }.

(** A file of the Drive folder, as [files().list] reports it. *)
Record RemoteFile : Type := { file_id : nat; file_name : string }.

Global Instance RemoteFile_eq_dec : EqDecision RemoteFile.
Proof. solve_decision. Defined.

(** The answers of the web site, the file system, the libraries and Drive. *)
Record Env : Type := {
  (* [requests.get(url)]; [None] when it raises *)
  http_get : string -> option Response;
  (* [urllib.parse.urljoin(base, ref)]; [None] when it raises *)
  urljoin : string -> string -> option string;
  (* [mimetypes.guess_type(url)[0]] *)
  guess_type : string -> option string;
  (* [open(path, "wb")] succeeds *)
  open_ok : string -> bool;
  (* [authenticate_drive] obtains credentials *)
  auth_ok : bool;
  (* [files().list(...).execute()] succeeds *)
  list_ok : bool;
  (* [files().create] of the folder succeeds *)
  mkdir_ok : bool;
  (* [files().create] of a file succeeds, by the id Drive would assign and
     the local path *)
  upload_ok : nat -> string -> bool;
  (* [files().delete(fileId=id)] succeeds *)
  delete_ok : nat -> bool
}.

(** The calls that change the Drive account, in the order they were made. *)
Inductive Event : Type :=
| FolderCreated
| UploadCall (path : string) (accepted : bool)
| DeleteCall (file : RemoteFile) (accepted : bool).

Record State : Type := {
  (* the folder [DRIVE_FOLDER_NAME] exists *)
  drive_folder : bool;
  (* its files, in listing order *)
  drive_files : list RemoteFile;
  (* the id Drive assigns to the next file created *)
  drive_next_id : nat;
  (* the files present under [LOCAL_SAVE_DIR] *)
  disk : gset string;
  (* the set object created in [main] and mutated by
     [download_and_upload_pdf] through its parameter *)
  todays_filenames : gset string;
  trace : list Event
}.

(** ** The monad: state and exceptions *)

Definition M (A : Type) : Type := State -> Result A * State.

Definition ret {A} (a : A) : M A := fun s => (Ok a, s).

Definition raise {A} (x : Exn) : M A := fun s => (Raise x, s).

Definition bind {A B} (m : M A) (k : A -> M B) : M B :=
  fun s => match m s with
           | (Ok a, s') => k a s'
           | (Raise x, s') => (Raise x, s')
           end.

(** [try: m  except Exception as e: h e] *)
Definition try_except {A} (m : M A) (h : Exn -> M A) : M A :=
  fun s => match m s with
           | (Ok a, s') => (Ok a, s')
           | (Raise x, s') => h x s'
           end.

Definition get_state : M State := fun s => (Ok s, s).

Definition modify (f : State -> State) : M unit := fun s => (Ok tt, f s).

Definition lift {A} (r : Result A) : M A := fun s => (r, s).

Notation "x <- m ;; k" := (bind m (fun x => k))
  (at level 100, m at next level, right associativity).
Notation "m ;; k" := (bind m (fun _ => k))
  (at level 100, right associativity).

(** [for x in l: body x] *)
Fixpoint for_each {A} (l : list A) (body : A -> M unit) : M unit :=
  match l with
  | [] => ret tt
  | x :: l' => body x ;; for_each l' body
  end.

Definition log (ev : Event) (s : State) : State :=
  {| drive_folder := drive_folder s; drive_files := drive_files s;
     drive_next_id := drive_next_id s; disk := disk s;
     todays_filenames := todays_filenames s; trace := (trace s ++ [ev])%list |}.

Definition with_folder (s : State) : State :=
  {| drive_folder := true; drive_files := drive_files s;
     drive_next_id := drive_next_id s; disk := disk s;
     todays_filenames := todays_filenames s; trace := trace s |}.

Definition with_files (fs : list RemoteFile) (n : nat) (s : State) : State :=
  {| drive_folder := drive_folder s; drive_files := fs;
     drive_next_id := n; disk := disk s;
     todays_filenames := todays_filenames s; trace := trace s |}.

Definition with_disk (d : gset string) (s : State) : State :=
  {| drive_folder := drive_folder s; drive_files := drive_files s;
     drive_next_id := drive_next_id s; disk := d;
     todays_filenames := todays_filenames s; trace := trace s |}.

Definition with_todays (t : gset string) (s : State) : State :=
  {| drive_folder := drive_folder s; drive_files := drive_files s;
     drive_next_id := drive_next_id s; disk := disk s;
     todays_filenames := t; trace := trace s |}.

(** ** The script *)

Definition SITEMAP_URL : string :=
  "https://cirslinger.github.io/CepheidSitemap/sitemap.xml".
Definition LOCAL_SAVE_DIR : string := "./downloads".

(** [[url for url in urls if "en-US" in url]]: [in] raises [TypeError] on the
    text of an empty [loc] element, which is [None]. *)
Fixpoint locale_filter (urls : list (option string)) : Result (list string) :=
  match urls with
  | [] => Ok []
  | None :: _ => Raise TypeError
  | Some url :: rest =>
      match locale_filter rest with
      | Ok kept => Ok (if Str.contains "en-US" url then url :: kept else kept)
      | Raise x => Raise x
      end
  end.

Section Script.

Variable e : Env.

Definition requests_get (url : string) : M Response :=
  match http_get e url with
  | Some response => ret response
  | None => raise ConnectionError
  end.

(** Step 1 (lines 42-49) *)
Definition get_sitemap_urls (sitemap_url : string) : M (list string) :=
  response <- requests_get sitemap_url ;;
  if negb (status_code response =? 200)%Z then ret []
  else match xml_locs (content response) with
       | None => raise ParseError
       | Some urls => lift (locale_filter urls)
       end.

(** Step 2 (lines 52-57) *)
Definition is_pdf_url (href base_url : string) : Result bool :=
  match urljoin e base_url href with
  | None => Raise ValueError
  | Some full_url =>
      if Str.contains ".pdf" (Str.lower full_url) then Ok true
      else Ok (bool_decide (guess_type e full_url = Some "application/pdf"))
  end.

(** The comprehension of lines 67-71 and the loop of lines 72-74 do the
    same with each reference: keep [urljoin(page_url, ref)] when
    [is_pdf_url(ref, page_url)]. *)
Fixpoint collect_pdf_links (page_url : string) (refs : list string)
  : Result (list string) :=
  match refs with
  | [] => Ok []
  | ref :: rest =>
      match is_pdf_url ref page_url with
      | Raise x => Raise x
      | Ok keep =>
          match (if keep then
                   match urljoin e page_url ref with
                   | Some link => Ok [link]
                   | None => Raise ValueError
                   end
                 else Ok []) with
          | Raise x => Raise x
          | Ok here =>
              match collect_pdf_links page_url rest with
              | Ok links => Ok (here ++ links)%list
              | Raise x => Raise x
              end
          end
      end
  end.

(** Step 3 (lines 60-78) *)
Definition find_pdf_links (page_url : string) : M (list string) :=
  try_except
    (response <- requests_get page_url ;;
     if negb (status_code response =? 200)%Z then ret []
     else
       pdf_links <- lift (collect_pdf_links page_url (hrefs (content response))) ;;
       more <- lift (collect_pdf_links page_url (srcs (content response))) ;;
       ret (elements (list_to_set (pdf_links ++ more)%list : gset string)))
    (fun _ => ret []).

(** Step 4 (lines 81-95); the token cache is left out. *)
Definition authenticate_drive : M unit :=
  if auth_ok e then ret tt else raise AuthError.

(** Step 5 (lines 98-109) *)
Definition get_or_create_folder : M unit :=
  if negb (list_ok e) then raise HttpError
  else
    s <- get_state ;;
    if drive_folder s then ret tt
    else if mkdir_ok e then modify (fun s => log FolderCreated (with_folder s))
    else raise HttpError.

(** Step 6 (lines 112-122): every page of the listing *)
Definition list_files_in_folder : M (list RemoteFile) :=
  if negb (list_ok e) then raise HttpError
  else s <- get_state ;; ret (drive_files s).

(** Step 7 (lines 125-129): [files().create] adds a file under a new id;
    [MediaFileUpload] opens the local file first. *)
Definition upload_to_drive (filepath : string) : M unit :=
  let name := OsPath.basename filepath in
  s <- get_state ;;
  if negb (bool_decide (filepath ∈ disk s)) then raise OSError
  else if upload_ok e (drive_next_id s) filepath then
    modify (fun s =>
      log (UploadCall filepath true)
        (with_files (drive_files s ++ [{| file_id := drive_next_id s; file_name := name |}])%list
                    (S (drive_next_id s)) s))
  else
    modify (log (UploadCall filepath false)) ;; raise HttpError.

(** [with open(local_path, "wb") as f: for chunk in ...: f.write(chunk)] *)
Definition write_stream (local_path : string) (response : Response) : M unit :=
  if negb (open_ok e local_path) then raise OSError
  else
    modify (fun s => with_disk ({[local_path]} ∪ disk s) s) ;;
    if streams (content response) then ret tt else raise ConnectionError.

Definition os_remove (path : string) : M unit :=
  s <- get_state ;;
  if bool_decide (path ∈ disk s) then modify (fun s => with_disk (disk s ∖ {[path]}) s)
  else raise OSError.

Definition todays_add (filename : string) : M unit :=
  modify (fun s => with_todays ({[filename]} ∪ todays_filenames s) s).

(** Step 8 (lines 132-148) *)
Definition download_and_upload_pdf (pdf_url : string) : M unit :=
  try_except
    (let filename := OsPath.basename pdf_url in
     let local_path := OsPath.join LOCAL_SAVE_DIR filename in
     response <- requests_get pdf_url ;;
     if (status_code response =? 200)%Z then
       write_stream local_path response ;;
       upload_to_drive local_path ;;
       todays_add filename ;;
       os_remove local_path
     else ret tt)
    (fun _ => ret tt).

(** [service.files().delete(fileId=file['id']).execute()] *)
Definition drive_delete (file : RemoteFile) : M unit :=
  if delete_ok e (file_id file) then
    modify (fun s =>
      log (DeleteCall file true)
        (with_files (filter (fun g => file_id g ≠ file_id file) (drive_files s))
                    (drive_next_id s) s))
  else
    modify (log (DeleteCall file false)) ;; raise HttpError.

(** The body of [for file in existing_files] (lines 154-156) *)
Definition reconcile_file (todays : gset string) (file : RemoteFile) : M unit :=
  if bool_decide (file_name file ∉ todays) then drive_delete file
  else ret tt.

(** Step 9 (lines 151-156) *)
Definition clean_up_old_files (todays : gset string) : M unit :=
  existing_files <- list_files_in_folder ;;
  for_each existing_files (reconcile_file todays).

(** The body of [for url in urls] (lines 170-175) *)
Definition scan_page (url : string) : M unit :=
  pdf_links <- find_pdf_links url ;;
  match pdf_links with
  | [] => ret tt
  | _ :: _ => for_each pdf_links download_and_upload_pdf
  end.

(** Main routine (lines 159-177) *)
Definition main : M unit :=
  urls <- get_sitemap_urls SITEMAP_URL ;;
  authenticate_drive ;;
  get_or_create_folder ;;
  modify (with_todays ∅) ;;
  for_each urls scan_page ;;
  s <- get_state ;;
  clean_up_old_files (todays_filenames s).

End Script.

(** ** Vocabulary of the statements *)

(** The remote files reconciliation has to delete, and those it has to keep. *)
Definition outdated (todays : gset string) (l : list RemoteFile) : list RemoteFile :=
  filter (fun f => file_name f ∉ todays) l.

Definition kept (todays : gset string) (l : list RemoteFile) : list RemoteFile :=
  filter (fun f => file_name f ∈ todays) l.

(** The files whose deletion was requested from Drive. *)
Fixpoint delete_calls (tr : list Event) : list RemoteFile :=
  match tr with
  | [] => []
  | DeleteCall f _ :: tr' => f :: delete_calls tr'
  | _ :: tr' => delete_calls tr'
  end.

(** Drive gives every file an id of its own, below the next one. *)
Definition drive_wf (s : State) : Prop :=
  NoDup (file_id <$> drive_files s) /\
  Forall (fun f => file_id f < drive_next_id s) (drive_files s).

Definition remote_names (s : State) : gset string :=
  list_to_set (file_name <$> drive_files s).

(** The document at [pdf_url] is fetched with status 200, staged, and its
    upload is accepted when Drive is about to assign the id [n]. *)
Definition doc_accepted (e : Env) (n : nat) (pdf_url : string) : bool :=
  match http_get e pdf_url with
  | None => false
  | Some response =>
      let local_path := OsPath.join LOCAL_SAVE_DIR (OsPath.basename pdf_url) in
      (status_code response =? 200)%Z && open_ok e local_path
      && streams (content response) && upload_ok e n local_path
  end.

(** Drive accepts or rejects the upload of a path whatever id comes next. *)
Definition stable_uploads (e : Env) : Prop :=
  forall n m path, upload_ok e n path = upload_ok e m path.

(** The deletions Drive accepts, in order, up to the first one it rejects. *)
Fixpoint accepted_prefix (e : Env) (l : list RemoteFile)
  : list RemoteFile * option RemoteFile :=
  match l with
  | [] => ([], None)
  | f :: l' =>
      if delete_ok e (file_id f) then
        let '(done, rejected) := accepted_prefix e l' in (f :: done, rejected)
      else ([], Some f)
  end.

(** The state once the files [done] are deleted and the deletion of
    [rejected] has failed. *)
Definition after_deletes (done : list RemoteFile) (rejected : option RemoteFile)
    (s : State) : State :=
  {| drive_folder := drive_folder s;
     drive_files := filter (fun g => file_id g ∉ file_id <$> done) (drive_files s);
     drive_next_id := drive_next_id s;
     disk := disk s;
     todays_filenames := todays_filenames s;
     trace := (trace s ++ ((fun f => DeleteCall f true) <$> done)
                       ++ match rejected with
                          | Some f => [DeleteCall f false]
                          | None => []
                          end)%list |}.

(** [s] comes from [s0] by uploads only: files were appended under the next
    ids, their names were added to [todays_filenames], and no deletion was
    requested. *)
Definition extends (s0 s : State) : Prop :=
  exists new evs,
    drive_files s = (drive_files s0 ++ new)%list /\
    file_id <$> new = seq (drive_next_id s0) (length new) /\
    drive_next_id s = drive_next_id s0 + length new /\
    todays_filenames s = todays_filenames s0 ∪ list_to_set (file_name <$> new) /\
    drive_folder s = drive_folder s0 /\
    trace s = (trace s0 ++ evs)%list /\
    delete_calls evs = [].

(** The computation [m] keeps the property [P] of the state, whether it
    returns or raises. *)
Definition preserves {A} (P : State -> Prop) (m : M A) : Prop :=
  forall s, P s -> P (snd (m s)).

(** ** Scenarios *)

Module Scenario.

Definition page_a : string := "https://example.com/en-US/a".
Definition page_b : string := "https://example.com/fr-FR/b".
Definition doc1 : string := "https://example.com/docs/doc1.pdf".
Definition doc2 : string := "https://example.com/docs/doc2.pdf".
Definition notes : string := "https://example.com/docs/notes.txt".
Definition doc_query : string := "https://example.com/docs/doc1.pdf?v=2".

Definition body (locs : option (list (option string))) (links : list string) : Body :=
  {| xml_locs := locs; hrefs := links; srcs := []; streams := true |}.

(** A sitemap with an en-US and a fr-FR page; the en-US page links two
    documents and a text file, all by absolute URLs. *)
Definition site (url : string) : option Response :=
  if String.eqb url SITEMAP_URL then
    Some {| status_code := 200; content := body (Some [Some page_a; Some page_b]) [] |}
  else if String.eqb url page_a then
    Some {| status_code := 200; content := body None [doc1; doc2; notes] |}
  else if String.eqb url doc1 || String.eqb url doc2 || String.eqb url doc_query then
    Some {| status_code := 200; content := body None [] |}
  else None.

(** The same site while its sitemap answers 503. *)
Definition site_503 (url : string) : option Response :=
  if String.eqb url SITEMAP_URL then
    Some {| status_code := 503; content := body None [] |}
  else site url.

(** [urljoin] returns an absolute reference as it is; the scenarios use no
    other. *)
Definition env (get : string -> option Response)
    (uploads : nat -> string -> bool) (deletes : nat -> bool) : Env :=
  {| http_get := get; urljoin := fun _ ref => Some ref;
     guess_type := fun _ => None; open_ok := fun _ => true;
     auth_ok := true; list_ok := true; mkdir_ok := true;
     upload_ok := uploads; delete_ok := deletes |}.

Definition healthy : Env := env site (fun _ _ => true) (fun _ => true).

Definition sitemap_down : Env := env site_503 (fun _ _ => true) (fun _ => true).

(** Nothing can be reached. *)
Definition offline : Env := env (fun _ => None) (fun _ _ => true) (fun _ => true).

Definition doc2_rejected : Env :=
  env site (fun _ path => negb (String.eqb path "./downloads/doc2.pdf")) (fun _ => true).

Definition delete_7_rejected : Env :=
  env site (fun _ _ => true) (fun id => negb (Nat.eqb id 7)).

Definition drive (files : list RemoteFile) (next : nat) : State :=
  {| drive_folder := true; drive_files := files; drive_next_id := next;
     disk := ∅; todays_filenames := ∅; trace := [] |}.

Definition old_pdf : RemoteFile := {| file_id := 7; file_name := "old.pdf" |}.
Definition older_pdf : RemoteFile := {| file_id := 8; file_name := "older.pdf" |}.
Definition old_doc2 : RemoteFile := {| file_id := 3; file_name := "doc2.pdf" |}.
Definition stale_pdf : RemoteFile := {| file_id := 5; file_name := "stale.pdf" |}.

(** A second document with the file name of [doc1], elsewhere on the site. *)
Definition doc1_archive : string := "https://example.com/archive/doc1.pdf".

Definition site_archive (url : string) : option Response :=
  if String.eqb url doc1_archive then
    Some {| status_code := 200; content := body None [] |}
  else site url.

Definition with_archive : Env := env site_archive (fun _ _ => true) (fun _ => true).

(** A text file in a directory whose name holds the marker, in capitals. *)
Definition notes_in_pdf_dir : string := "https://example.com/my.PDFs/notes.txt".

End Scenario.

(** * Properties *)

Example run_healthy :
  let '(r, s) := main Scenario.healthy (Scenario.drive [Scenario.old_pdf] 10) in
  r = Ok tt /\ drive_files s = [ {| file_id := 10; file_name := "doc1.pdf" |};
                                 {| file_id := 11; file_name := "doc2.pdf" |} ]
  /\ delete_calls (trace s) = [Scenario.old_pdf].
Proof. vm_compute. auto. Qed.

(** ** Strings *)

Section StringFacts.

Local Arguments String.append : simpl nomatch.

Lemma str_app_assoc (a b c : string) : (a ++ b) ++ c = a ++ (b ++ c).
Proof. induction a as [|x a IH]; simpl; [reflexivity | now rewrite IH]. Qed.

Lemma starts_with_spec (p s : string) :
  Str.starts_with p s = true <-> exists post, s = p ++ post.
Proof.
  revert s. induction p as [|a p IH]; intros s; simpl.
  - split; [intros _; now exists s | reflexivity].
  - destruct s as [|b s].
    + split; [discriminate | intros [post H]; discriminate].
    + destruct (Ascii.eqb a b) eqn:E.
      * apply Ascii.eqb_eq in E. subst b. rewrite IH.
        split; intros [post H]; exists post; [now rewrite H | now inversion H].
      * split; [discriminate |].
        intros [post H]. inversion H. subst b.
        rewrite Ascii.eqb_refl in E. discriminate.
Qed.

(** [Str.contains] is the substring test. *)
Lemma contains_spec (sub s : string) :
  Str.contains sub s = true <-> exists pre post, s = pre ++ sub ++ post.
Proof.
  split.
  - induction s as [|c s IH]; simpl.
    + destruct (Str.starts_with sub "") eqn:E; [|discriminate].
      intros _. apply starts_with_spec in E as [post E]. now exists "", post.
    + destruct (Str.starts_with sub (String c s)) eqn:E.
      * intros _. apply starts_with_spec in E as [post E]. now exists "", post.
      * intros H. destruct (IH H) as (pre & post & ->).
        now exists (String c pre), post.
  - intros (pre & post & ->). induction pre as [|c pre IH].
    + assert (E : Str.starts_with sub ("" ++ sub ++ post) = true)
        by (apply starts_with_spec; now exists post).
      simpl in *. destruct (sub ++ post); simpl; now rewrite E.
    + simpl. simpl in IH. rewrite IH. now destruct (Str.starts_with sub _).
Qed.

Lemma after_last_slash_none (cand s : string) :
  Str.has_slash s = false -> Str.after_last_slash cand s = cand.
Proof.
  revert cand. induction s as [|c s IH]; intros cand; simpl; [reflexivity|].
  intros H. apply orb_false_iff in H as [-> H]. now apply IH.
Qed.

Lemma after_last_slash_app (cand a b : string) :
  Str.after_last_slash cand (a ++ String "/" b) = Str.after_last_slash b b.
Proof.
  revert cand. induction a as [|c a IH]; intros cand; simpl; [reflexivity|].
  apply IH.
Qed.

Lemma split_last_slash (p : string) :
  Str.has_slash p = true ->
  exists a b, p = a ++ String "/" b /\ Str.has_slash b = false.
Proof.
  induction p as [|c p IH]; simpl; [discriminate|].
  destruct (Str.has_slash p) eqn:E.
  - intros _. destruct (IH eq_refl) as (a & b & -> & Hb).
    now exists (String c a), b.
  - rewrite orb_false_r. intros H. apply Ascii.eqb_eq in H. subst c.
    now exists "", p.
Qed.

(** [os.path.basename] returns the text after the last slash of its whole
    argument: the argument itself when it has no slash. *)
Lemma basename_spec (p : string) :
  Str.has_slash (OsPath.basename p) = false /\
  (OsPath.basename p = p \/ exists a, p = a ++ "/" ++ OsPath.basename p).
Proof.
  unfold OsPath.basename. destruct (Str.has_slash p) eqn:E.
  - destruct (split_last_slash p E) as (a & b & -> & Hb).
    rewrite after_last_slash_app, (after_last_slash_none b b Hb).
    split; [exact Hb | right; now exists a].
  - rewrite (after_last_slash_none p p E). auto.
Qed.

Lemma basename_after_slash (a b : string) :
  Str.has_slash b = false -> OsPath.basename (a ++ "/" ++ b) = b.
Proof.
  intros Hb. unfold OsPath.basename. simpl.
  now rewrite after_last_slash_app, after_last_slash_none.
Qed.

Lemma starts_with_slash_has_slash (b : string) :
  Str.starts_with "/" b = true -> Str.has_slash b = true.
Proof.
  destruct b as [|c b]; [simpl; discriminate|].
  change (Str.starts_with "/" (String c b))
    with (if Ascii.eqb "/" c then Str.starts_with "" b else false).
  change (Str.has_slash (String c b)) with (Str.is_slash c || Str.has_slash b).
  unfold Str.is_slash. rewrite (Ascii.eqb_sym c).
  destruct (Ascii.eqb "/" c); [reflexivity | discriminate].
Qed.

(** The staging path of a document and the name it gets on Drive. *)
Lemma staging_path (filename : string) :
  Str.has_slash filename = false ->
  OsPath.join LOCAL_SAVE_DIR filename = "./downloads/" ++ filename /\
  OsPath.basename (OsPath.join LOCAL_SAVE_DIR filename) = filename.
Proof.
  intros H. unfold OsPath.join.
  destruct (Str.starts_with "/" filename) eqn:E.
  - apply starts_with_slash_has_slash in E. congruence.
  - split; [reflexivity|].
    change (LOCAL_SAVE_DIR ++ "/" ++ filename) with ("./downloads" ++ "/" ++ filename).
    now apply basename_after_slash.
Qed.

End StringFacts.

(** ** Running the monad *)

Ltac monad :=
  cbv beta iota zeta delta [bind ret raise lift modify get_state try_except].

Ltac monad_in H :=
  cbv beta iota zeta delta [bind ret raise lift modify get_state try_except] in H.

Ltac state_fields :=
  cbn [drive_folder drive_files drive_next_id disk todays_filenames trace].

(** ** Step 1: the sitemap *)

Lemma locale_filter_sound (urls : list (option string)) (kept : list string) :
  locale_filter urls = Ok kept ->
  (Some <$> kept) `sublist_of` urls /\
  Forall (fun url => Str.contains "en-US" url = true) kept.
Proof.
  revert kept. induction urls as [|[url|] urls IH]; intros kept; simpl.
  - intros [= <-]. split; constructor.
  - destruct (locale_filter urls) as [kept'|] eqn:E; [|discriminate].
    destruct (IH kept' eq_refl) as [Hsub Hall].
    destruct (Str.contains "en-US" url) eqn:C; intros [= <-].
    + split; [now apply sublist_skip | now constructor].
    + split; [now apply sublist_cons | exact Hall].
  - discriminate.
Qed.

Lemma locale_filter_total (texts : list string) :
  locale_filter (Some <$> texts)
  = Ok (filter (fun url => Str.contains "en-US" url = true) texts).
Proof.
  induction texts as [|url texts IH]; [reflexivity|].
  cbn [fmap list_fmap locale_filter]. fold (Some <$> texts). rewrite IH.
  rewrite filter_cons.
  destruct (Str.contains "en-US" url) eqn:C;
    destruct (decide _) as [D|D]; congruence.
Qed.

(** C7.  For a sitemap fetched with status 200, whatever [get_sitemap_urls]
    returns is, in document order, a selection of the [loc] texts, each of
    which contains the locale filter ["en-US"]; and it does return, namely
    the [loc] texts that contain ["en-US"], when the document is well-formed
    and every [loc] element has text. *)
Theorem sitemap_urls_are_locale_locs (e : Env) (sitemap_url : string)
    (s : State) (response : Response) :
  http_get e sitemap_url = Some response ->
  status_code response = 200%Z ->
  (forall urls s',
      get_sitemap_urls e sitemap_url s = (Ok urls, s') ->
      exists texts,
        xml_locs (content response) = Some texts /\
        (Some <$> urls) `sublist_of` texts /\
        Forall (fun url => exists pre post, url = pre ++ "en-US" ++ post) urls) /\
  (forall texts,
      xml_locs (content response) = Some (Some <$> texts) ->
      get_sitemap_urls e sitemap_url s
      = (Ok (filter (fun url => Str.contains "en-US" url = true) texts), s)).
Proof.
  intros Hget Hstatus.
  unfold get_sitemap_urls, requests_get. rewrite Hget. monad.
  rewrite Hstatus. change (negb (200 =? 200)%Z) with false. cbv iota.
  split.
  - intros urls s'. destruct (xml_locs (content response)) as [texts|];
      [|discriminate].
    unfold lift. intros [= Hf <-]. exists texts.
    destruct (locale_filter_sound _ _ Hf) as [Hsub Hall].
    repeat split; [exact Hsub|].
    eapply Forall_impl; [exact Hall|]. intros url. apply contains_spec.
  - intros texts ->. unfold lift. now rewrite locale_filter_total.
Qed.

Lemma sitemap_urls_are_locale_locs_witness :
  get_sitemap_urls Scenario.healthy SITEMAP_URL (Scenario.drive [] 0)
  = (Ok [Scenario.page_a], Scenario.drive [] 0).
Proof.
  exact (proj2 (sitemap_urls_are_locale_locs Scenario.healthy SITEMAP_URL
                  (Scenario.drive [] 0)
                  {| status_code := 200;
                     content := Scenario.body
                       (Some [Some Scenario.page_a; Some Scenario.page_b]) [] |}
                  eq_refl eq_refl)
               [Scenario.page_a; Scenario.page_b] eq_refl).
Defined.

(** ** Step 3: the links of a page *)

Lemma collect_pdf_links_sound (e : Env) (page_url : string)
    (refs links : list string) :
  collect_pdf_links e page_url refs = Ok links ->
  forall link, link ∈ links ->
    exists ref, ref ∈ refs /\ urljoin e page_url ref = Some link /\
                is_pdf_url e ref page_url = Ok true.
Proof.
  revert links. induction refs as [|ref refs IH]; intros links; simpl.
  - intros [= <-] link Hin. inversion Hin.
  - destruct (is_pdf_url e ref page_url) as [keep|] eqn:Hpdf; [|discriminate].
    destruct keep.
    + destruct (urljoin e page_url ref) as [joined|] eqn:Hjoin; [|discriminate].
      destruct (collect_pdf_links e page_url refs) as [rest|]; [|discriminate].
      intros [= <-] link Hin. apply elem_of_cons in Hin as [->|Hin].
      * exists ref. repeat split; [left | exact Hjoin | exact Hpdf].
      * destruct (IH rest eq_refl link Hin) as (r & Hr & Hj & Hp).
        exists r. repeat split; [now right | exact Hj | exact Hp].
    + destruct (collect_pdf_links e page_url refs) as [rest|]; [|discriminate].
      intros [= <-] link Hin.
      destruct (IH rest eq_refl link Hin) as (r & Hr & Hj & Hp).
      exists r. repeat split; [now right | exact Hj | exact Hp].
Qed.

(** C8.  [find_pdf_links] never raises and leaves the state alone; the list
    it returns has no duplicates; it is empty when the page is unreachable,
    when the status is not 200 and when a reference makes [urljoin] raise;
    otherwise it holds exactly the joined URLs of the anchors and of the
    iframe and embed tags that [is_pdf_url] accepts. *)
Theorem find_pdf_links_set_semantics (e : Env) (page_url : string) (s : State) :
  exists links,
    find_pdf_links e page_url s = (Ok links, s) /\
    NoDup links /\
    match http_get e page_url with
    | None => links = []
    | Some response =>
        if (status_code response =? 200)%Z then
          match collect_pdf_links e page_url (hrefs (content response)),
                collect_pdf_links e page_url (srcs (content response)) with
          | Ok anchors, Ok embeds =>
              (forall link, link ∈ links <-> link ∈ (anchors ++ embeds)%list) /\
              (forall link, link ∈ links ->
                 exists ref,
                   ref ∈ (hrefs (content response) ++ srcs (content response))%list /\
                   urljoin e page_url ref = Some link /\
                   is_pdf_url e ref page_url = Ok true)
          | _, _ => links = []
          end
        else links = []
    end.
Proof.
  unfold find_pdf_links, requests_get.
  destruct (http_get e page_url) as [response|]; monad.
  2: { exists []. repeat split. constructor. }
  destruct (status_code response =? 200)%Z; cbv [negb]; cbv iota.
  2: { exists []. repeat split. constructor. }
  destruct (collect_pdf_links e page_url (hrefs (content response)))
    as [anchors|] eqn:Ha.
  2: { exists []. repeat split. constructor. }
  destruct (collect_pdf_links e page_url (srcs (content response)))
    as [embeds|] eqn:Hb.
  2: { exists []. repeat split. constructor. }
  eexists. split; [reflexivity|]. split; [apply NoDup_elements|].
  assert (Hmem : forall link,
             link ∈ elements (list_to_set (anchors ++ embeds)%list : gset string)
             <-> link ∈ (anchors ++ embeds)%list).
  { intros link. now rewrite elem_of_elements, elem_of_list_to_set. }
  split; [exact Hmem|].
  intros link Hin. apply Hmem, elem_of_app in Hin as [Hin|Hin].
  - destruct (collect_pdf_links_sound _ _ _ _ Ha link Hin) as (r & Hr & Hj & Hp).
    exists r. rewrite elem_of_app. auto.
  - destruct (collect_pdf_links_sound _ _ _ _ Hb link Hin) as (r & Hr & Hj & Hp).
    exists r. rewrite elem_of_app. auto.
Qed.

Example find_pdf_links_scenario :
  find_pdf_links Scenario.healthy Scenario.page_a (Scenario.drive [] 0)
  = (Ok [Scenario.doc1; Scenario.doc2], Scenario.drive [] 0).
Proof. vm_compute. reflexivity. Qed.

(** ** Step 9: reconciliation *)

Lemma delete_calls_app (tr1 tr2 : list Event) :
  delete_calls (tr1 ++ tr2) = (delete_calls tr1 ++ delete_calls tr2)%list.
Proof.
  induction tr1 as [|[| |f ok] tr1 IH]; simpl; [reflexivity | exact IH | exact IH |].
  now rewrite IH.
Qed.

Lemma delete_calls_deleted (done : list RemoteFile) :
  delete_calls ((fun f => DeleteCall f true) <$> done) = done.
Proof. induction done as [|f done IH]; simpl; [reflexivity | f_equal; exact IH]. Qed.

Lemma filter_no_ids (l : list RemoteFile) :
  filter (fun g => file_id g ∉ file_id <$> []) l = l.
Proof.
  induction l as [|g l IH]; [reflexivity|].
  rewrite filter_cons_True; [now rewrite IH | apply not_elem_of_nil].
Qed.

Lemma after_deletes_nil (s : State) : after_deletes [] None s = s.
Proof.
  destruct s. unfold after_deletes. state_fields. f_equal.
  - apply filter_no_ids.
  - rewrite fmap_nil. now rewrite !app_nil_r.
Qed.

(** What the loop of [clean_up_old_files] does, whatever Drive answers: it
    walks the outdated files in listing order, deletes those Drive accepts
    and stops with the exception at the first one Drive rejects. *)
Lemma reconcile_loop (e : Env) (todays : gset string) (l : list RemoteFile)
    (s : State) :
  for_each l (reconcile_file e todays) s
  = let '(done, rejected) := accepted_prefix e (outdated todays l) in
    (match rejected with None => Ok tt | Some _ => Raise HttpError end,
     after_deletes done rejected s).
Proof.
  revert s. induction l as [|f l IH]; intros s.
  - simpl. monad. now rewrite after_deletes_nil.
  - unfold outdated. rewrite filter_cons. fold (outdated todays l).
    cbn [for_each]. unfold reconcile_file at 1.
    destruct (decide (file_name f ∉ todays)) as [Hout|Hin].
    + rewrite bool_decide_eq_true_2 by exact Hout.
      cbn [accepted_prefix]. unfold drive_delete.
      destruct (delete_ok e (file_id f)) eqn:Hok; monad.
      * rewrite IH. destruct (accepted_prefix e (outdated todays l)) as [done rej].
        f_equal. unfold after_deletes, log, with_files. state_fields. f_equal.
        -- rewrite list_filter_filter. apply list_filter_iff. intros g.
           rewrite fmap_cons, elem_of_cons. tauto.
        -- rewrite fmap_cons, <- app_assoc. reflexivity.
      * f_equal. unfold after_deletes, log. state_fields. f_equal.
        symmetry. apply filter_no_ids.
    + rewrite bool_decide_eq_false_2 by exact Hin. monad. apply IH.
Qed.

Lemma filter_ext_in {A} (P Q : A -> Prop) `{!forall x, Decision (P x)}
    `{!forall x, Decision (Q x)} (l : list A) :
  (forall x, x ∈ l -> (P x <-> Q x)) -> filter P l = filter Q l.
Proof.
  induction l as [|a l IH]; intros Hpq; [reflexivity|].
  rewrite !filter_cons.
  assert (Ha : P a <-> Q a) by (apply Hpq; left).
  rewrite IH by (intros x Hx; apply Hpq; now right).
  destruct (decide (P a)), (decide (Q a)); tauto.
Qed.

Lemma filter_all {A} (P : A -> Prop) `{!forall x, Decision (P x)} (l : list A) :
  (forall x, x ∈ l -> P x) -> filter P l = l.
Proof.
  induction l as [|a l IH]; intros Hp; [reflexivity|].
  rewrite filter_cons_True by (apply Hp; left).
  rewrite IH; [reflexivity|]. intros x Hx. apply Hp. now right.
Qed.

Lemma same_id_same_file (l : list RemoteFile) (g h : RemoteFile) :
  NoDup (file_id <$> l) -> g ∈ l -> h ∈ l -> file_id g = file_id h -> g = h.
Proof.
  induction l as [|a l IH]; intros Hnd Hg Hh Hid; [inversion Hg|].
  rewrite fmap_cons in Hnd. apply NoDup_cons in Hnd as [Ha Hnd].
  apply elem_of_cons in Hg as [->|Hg]; apply elem_of_cons in Hh as [->|Hh].
  - reflexivity.
  - exfalso. apply Ha. rewrite Hid. now apply list_elem_of_fmap_2.
  - exfalso. apply Ha. rewrite <- Hid. now apply list_elem_of_fmap_2.
  - now apply IH.
Qed.

Lemma accepted_prefix_spec (e : Env) (l done : list RemoteFile)
    (rejected : option RemoteFile) :
  accepted_prefix e l = (done, rejected) ->
  Forall (fun f => delete_ok e (file_id f) = true) done /\
  match rejected with
  | None => l = done
  | Some f => exists rest, l = (done ++ f :: rest)%list /\
                           delete_ok e (file_id f) = false
  end.
Proof.
  revert done. induction l as [|f l IH]; intros done; simpl.
  - intros [= <- <-]. split; [constructor | reflexivity].
  - destruct (delete_ok e (file_id f)) eqn:Hok.
    + destruct (accepted_prefix e l) as [d r]. intros [= <- <-].
      destruct (IH d eq_refl) as [Hall Hr]. split; [now constructor|].
      destruct r as [g|]; [|now rewrite Hr].
      destruct Hr as (rest & -> & Hg). now exists rest.
    + intros [= <- <-]. split; [constructor|]. now exists l.
Qed.

Lemma accepted_prefix_all (e : Env) (l : list RemoteFile) :
  Forall (fun f => delete_ok e (file_id f) = true) l ->
  accepted_prefix e l = (l, None).
Proof.
  induction 1 as [|f l Hf _ IH]; simpl; [reflexivity|]. now rewrite Hf, IH.
Qed.

Lemma accepted_prefix_reject (e : Env) (a b : list RemoteFile) (f : RemoteFile) :
  Forall (fun g => delete_ok e (file_id g) = true) a ->
  delete_ok e (file_id f) = false ->
  accepted_prefix e (a ++ f :: b) = (a, Some f).
Proof.
  intros Ha Hf. induction Ha as [|g a Hg _ IH]; simpl.
  - now rewrite Hf.
  - now rewrite Hg, IH.
Qed.

(** With ids that identify the files, deleting some outdated files by id
    takes away these files and no other. *)
Lemma filter_deleted_ids (todays : gset string) (l done : list RemoteFile) :
  NoDup (file_id <$> l) -> done ⊆ outdated todays l ->
  filter (fun g => file_id g ∉ file_id <$> done) l = filter (fun g => g ∉ done) l.
Proof.
  intros Hnd Hsub. apply filter_ext_in. intros g Hg.
  split; intros H Hin; apply H.
  - now apply list_elem_of_fmap_2.
  - apply list_elem_of_fmap in Hin as (h & Hid & Hh).
    assert (Hl : h ∈ l).
    { apply Hsub in Hh. unfold outdated in Hh.
      now apply list_elem_of_filter in Hh as [_ Hh]. }
    now rewrite (same_id_same_file l g h Hnd Hg Hl Hid).
Qed.

Lemma outdated_kept_split (todays : gset string) (l : list RemoteFile) :
  filter (fun g => g ∉ outdated todays l) l = kept todays l.
Proof.
  apply filter_ext_in. intros g Hg. unfold outdated.
  rewrite list_elem_of_filter. split.
  - intros H. destruct (decide (file_name g ∈ todays)); [assumption|].
    exfalso. apply H. now split.
  - intros H [Hout _]. now apply Hout.
Qed.

Lemma clean_up_no_listing (e : Env) (todays : gset string) (s : State) :
  list_ok e = false -> clean_up_old_files e todays s = (Raise HttpError, s).
Proof.
  intros H. unfold clean_up_old_files, list_files_in_folder. rewrite H.
  reflexivity.
Qed.

Lemma clean_up_run (e : Env) (todays : gset string) (s : State) :
  list_ok e = true ->
  clean_up_old_files e todays s
  = let '(done, rejected) :=
      accepted_prefix e (outdated todays (drive_files s)) in
    (match rejected with None => Ok tt | Some _ => Raise HttpError end,
     after_deletes done rejected s).
Proof.
  intros H. unfold clean_up_old_files, list_files_in_folder. rewrite H.
  cbv [negb]. monad. apply reconcile_loop.
Qed.

Ltac concrete_nodup := apply (bool_decide_unpack _); vm_compute; exact I.




(** The scenario of the specification: [old.pdf] is in the folder, the run
    uploaded [new.pdf]; reconciliation leaves exactly [new.pdf]. *)
Example reconcile_old_new :
  let s := Scenario.drive [Scenario.old_pdf; {| file_id := 9; file_name := "new.pdf" |}] 10 in
  fst (clean_up_old_files Scenario.healthy {["new.pdf"]} s) = Ok tt /\
  drive_files (snd (clean_up_old_files Scenario.healthy {["new.pdf"]} s))
  = [{| file_id := 9; file_name := "new.pdf" |}].
Proof. split; vm_compute; reflexivity. Qed.

(** C5, as stated, fails: Drive rejects the deletion of [old.pdf] (id 7);
    [older.pdf], listed after it and just as outdated, is never asked to be
    deleted and stays, and both [clean_up_old_files] and [main] end with the
    exception. *)
Lemma delete_failure_aborts_the_rest :
  let s := Scenario.drive [Scenario.old_pdf; Scenario.older_pdf] 10 in
  let after := snd (clean_up_old_files Scenario.delete_7_rejected ∅ s) in
  let run := main Scenario.delete_7_rejected s in
  fst (clean_up_old_files Scenario.delete_7_rejected ∅ s) = Raise HttpError /\
  delete_calls (trace after) = [Scenario.old_pdf] /\
  drive_files after = [Scenario.old_pdf; Scenario.older_pdf] /\
  fst run = Raise HttpError /\
  delete_calls (trace (snd run)) = [Scenario.old_pdf] /\
  Scenario.older_pdf ∈ drive_files (snd run).
Proof.
  repeat split; try (vm_compute; reflexivity).
  vm_compute. right. left.
Qed.

(** A deletion that Drive rejects, seen from [clean_up_old_files] alone. *)
Lemma clean_up_rejected (e : Env) (todays : gset string)
    (s : State) (before after : list RemoteFile) (f : RemoteFile) :
  list_ok e = true ->
  NoDup (file_id <$> drive_files s) ->
  drive_files s = (before ++ f :: after)%list ->
  file_name f ∉ todays ->
  delete_ok e (file_id f) = false ->
  (forall g, g ∈ before -> file_name g ∉ todays -> delete_ok e (file_id g) = true) ->
  exists s',
    clean_up_old_files e todays s = (Raise HttpError, s') /\
    trace s' = (trace s ++ ((fun g => DeleteCall g true) <$> outdated todays before)
                        ++ [DeleteCall f false])%list /\
    drive_files s' = (kept todays before ++ f :: after)%list.
Proof.
  intros Hlist Hnd Hfiles Hout Hrej Hok.
  rewrite clean_up_run by exact Hlist.
  assert (Hsplit : outdated todays (drive_files s)
                   = (outdated todays before ++ f :: outdated todays after)%list).
  { rewrite Hfiles. unfold outdated. rewrite filter_app, filter_cons_True by exact Hout.
    reflexivity. }
  rewrite Hsplit, accepted_prefix_reject; [| |exact Hrej].
  2: { apply Forall_forall. intros g Hg. unfold outdated in Hg.
       apply list_elem_of_filter in Hg as [Hg1 Hg2]. now apply Hok. }
  eexists. split; [reflexivity|]. split; [reflexivity|].
  unfold after_deletes. state_fields.
  rewrite (filter_deleted_ids todays) by
    (try exact Hnd; rewrite Hsplit; intros g Hg; apply elem_of_app; now left).
  rewrite Hfiles, filter_app. f_equal.
  - rewrite <- outdated_kept_split. reflexivity.
  - rewrite Hfiles, fmap_app in Hnd. apply NoDup_app in Hnd as (_ & Hdisj & _).
    apply filter_all. intros g Hg Hin. unfold outdated in Hin.
    apply list_elem_of_filter in Hin as [_ Hin].
    apply (Hdisj (file_id g)); now apply list_elem_of_fmap_2.
Qed.

(** ** Step 8: one document *)

Ltac state_step :=
  monad; unfold log, with_files, with_disk, with_todays, with_folder;
  state_fields.

Lemma staging_basename (pdf_url : string) :
  OsPath.basename (OsPath.join LOCAL_SAVE_DIR (OsPath.basename pdf_url))
  = OsPath.basename pdf_url.
Proof. apply staging_path, basename_spec. Qed.

(** A document that is fetched with status 200, staged and accepted by
    Drive: one file is created on Drive, under a new id and named by the text
    after the last slash of the URL; that name joins [todays_filenames]; the
    staging file is removed again. *)
Lemma download_accepted_run (e : Env) (pdf_url : string) (s : State) :
  doc_accepted e (drive_next_id s) pdf_url = true ->
  download_and_upload_pdf e pdf_url s
  = (Ok tt,
     let filename := OsPath.basename pdf_url in
     let local_path := OsPath.join LOCAL_SAVE_DIR filename in
     {| drive_folder := drive_folder s;
        drive_files := (drive_files s ++
                        [{| file_id := drive_next_id s; file_name := filename |}])%list;
        drive_next_id := S (drive_next_id s);
        disk := ({[local_path]} ∪ disk s) ∖ {[local_path]};
        todays_filenames := {[filename]} ∪ todays_filenames s;
        trace := (trace s ++ [UploadCall local_path true])%list |}).
Proof.
  unfold doc_accepted, download_and_upload_pdf, requests_get.
  destruct (http_get e pdf_url) as [response|]; [|discriminate].
  intros H. apply andb_prop in H as [H Hup]. apply andb_prop in H as [H Hstream].
  apply andb_prop in H as [Hstatus Hopen].
  unfold write_stream, upload_to_drive, todays_add, os_remove.
  state_step. rewrite Hstatus. state_step. rewrite Hopen. cbv [negb]. state_step.
  rewrite Hstream. state_step.
  rewrite bool_decide_eq_true_2 by set_solver. cbv [negb]. state_step.
  rewrite Hup. state_step.
  rewrite bool_decide_eq_true_2 by set_solver. state_step.
  now rewrite staging_basename.
Qed.

(** X1.  A document that is fetched with status 200, staged and accepted by
    Drive: the call returns normally; Drive has one more file, under the id
    that was next and named by the text after the last slash of the URL; that
    name is in [todays_filenames]; the staging file is gone and the rest of
    the staging directory is as before. *)
Theorem accepted_document_effect (e : Env) (pdf_url : string) (s : State) :
  let filename := OsPath.basename pdf_url in
  let local_path := OsPath.join LOCAL_SAVE_DIR filename in
  let s' := snd (download_and_upload_pdf e pdf_url s) in
  doc_accepted e (drive_next_id s) pdf_url = true ->
  fst (download_and_upload_pdf e pdf_url s) = Ok tt /\
  drive_files s'
  = (drive_files s ++ [{| file_id := drive_next_id s; file_name := filename |}])%list /\
  drive_next_id s' = S (drive_next_id s) /\
  todays_filenames s' = {[filename]} ∪ todays_filenames s /\
  (local_path ∉ disk s') /\
  (forall path, path <> local_path -> (path ∈ disk s' <-> path ∈ disk s)) /\
  trace s' = (trace s ++ [UploadCall local_path true])%list.
Proof.
  intros filename local_path s' Hacc. subst s'.
  rewrite download_accepted_run by exact Hacc. cbn [fst snd]. state_fields.
  fold filename. fold local_path.
  repeat split; try reflexivity; set_solver.
Qed.

Lemma accepted_document_effect_witness :
  let s' := snd (download_and_upload_pdf Scenario.healthy Scenario.doc1
                   (Scenario.drive [] 0)) in
  drive_files s' = [{| file_id := 0; file_name := "doc1.pdf" |}] /\
  todays_filenames s' = {["doc1.pdf"]} ∪ ∅ /\
  "./downloads/doc1.pdf" ∉ disk s'.
Proof.
  destruct (accepted_document_effect Scenario.healthy Scenario.doc1
              (Scenario.drive [] 0) eq_refl)
    as (_ & Hfiles & _ & Htodays & Hdisk & _).
  intros s'. split; [exact Hfiles | split; [exact Htodays | exact Hdisk]].
Defined.

(** A document that is not accepted (unreachable, status other than 200,
    staging or upload failure) changes nothing on Drive and nothing in
    [todays_filenames]; the exception, if any, is swallowed. *)
Lemma download_not_accepted (e : Env) (pdf_url : string) (s : State) :
  doc_accepted e (drive_next_id s) pdf_url = false ->
  exists s' evs,
    download_and_upload_pdf e pdf_url s = (Ok tt, s') /\
    drive_folder s' = drive_folder s /\
    drive_files s' = drive_files s /\
    drive_next_id s' = drive_next_id s /\
    todays_filenames s' = todays_filenames s /\
    trace s' = (trace s ++ evs)%list /\
    delete_calls evs = [].
Proof.
  unfold doc_accepted, download_and_upload_pdf, requests_get.
  destruct (http_get e pdf_url) as [response|].
  2: { intros _. exists s, []. state_step. now rewrite app_nil_r. }
  unfold write_stream, upload_to_drive, todays_add, os_remove. state_step.
  destruct (status_code response =? 200)%Z.
  2: { intros _. exists s, []. now rewrite app_nil_r. }
  destruct (open_ok e _).
  2: { intros _. exists s, []. cbv [negb]. now rewrite app_nil_r. }
  destruct (streams (content response)).
  2: { intros _. eexists _, []. cbv [negb]. split; [reflexivity|].
       state_fields. now rewrite app_nil_r. }
  cbn [andb]. intros Hup. cbv [negb]. state_step.
  rewrite bool_decide_eq_true_2 by set_solver. cbv [negb]. state_step.
  rewrite Hup. state_step.
  eexists _, [UploadCall _ false]. split; [reflexivity|]. state_fields.
  repeat split; reflexivity.
Qed.

(** X2.  [download_and_upload_pdf] never raises, whatever the site, the disk
    and Drive do; it never asks Drive to delete anything, it only ever
    appends to the folder, and it never takes a name out of
    [todays_filenames]. *)
Theorem download_never_raises_never_deletes (e : Env) (pdf_url : string)
    (s : State) :
  exists s' evs,
    download_and_upload_pdf e pdf_url s = (Ok tt, s') /\
    trace s' = (trace s ++ evs)%list /\
    delete_calls evs = [] /\
    drive_files s `prefix_of` drive_files s' /\
    todays_filenames s ⊆ todays_filenames s'.
Proof.
  destruct (doc_accepted e (drive_next_id s) pdf_url) eqn:Hacc.
  - rewrite download_accepted_run by exact Hacc.
    eexists _, [UploadCall _ true]. split; [reflexivity|]. state_fields.
    repeat split; [now eexists | set_solver].
  - destruct (download_not_accepted e pdf_url s Hacc)
      as (s' & evs & -> & _ & Hfiles & _ & Htodays & Htrace & Hdel).
    exists s', evs. rewrite Hfiles, Htodays. repeat split; auto.
Qed.

(** X3.  The name of a document enters [todays_filenames] exactly when the
    document was fetched with status 200, staged, and its upload accepted. *)
Theorem filename_added_iff_uploaded (e : Env) (pdf_url : string) (s : State) :
  todays_filenames (snd (download_and_upload_pdf e pdf_url s))
  = if doc_accepted e (drive_next_id s) pdf_url
    then {[OsPath.basename pdf_url]} ∪ todays_filenames s
    else todays_filenames s.
Proof.
  destruct (doc_accepted e (drive_next_id s) pdf_url) eqn:Hacc.
  - now rewrite download_accepted_run by exact Hacc.
  - destruct (download_not_accepted e pdf_url s Hacc)
      as (s' & evs & -> & _ & _ & _ & Htodays & _).
    exact Htodays.
Qed.

(** X4.  When the upload is rejected, [os.remove] is never reached: the staging
    file stays under [LOCAL_SAVE_DIR], nothing is added to Drive or to
    [todays_filenames], and the call still returns normally. *)
Theorem rejected_upload_leaves_staging_file (e : Env) (pdf_url : string)
    (s : State) (response : Response) :
  let local_path := OsPath.join LOCAL_SAVE_DIR (OsPath.basename pdf_url) in
  http_get e pdf_url = Some response ->
  status_code response = 200%Z ->
  open_ok e local_path = true ->
  streams (content response) = true ->
  upload_ok e (drive_next_id s) local_path = false ->
  download_and_upload_pdf e pdf_url s
  = (Ok tt,
     {| drive_folder := drive_folder s;
        drive_files := drive_files s;
        drive_next_id := drive_next_id s;
        disk := {[local_path]} ∪ disk s;
        todays_filenames := todays_filenames s;
        trace := (trace s ++ [UploadCall local_path false])%list |}).
Proof.
  intros local_path Hget Hstatus Hopen Hstream Hup.
  unfold download_and_upload_pdf, requests_get. rewrite Hget.
  unfold write_stream, upload_to_drive, todays_add, os_remove.
  fold local_path. state_step. rewrite Hstatus. change (200 =? 200)%Z with true.
  state_step. rewrite Hopen. cbv [negb]. state_step. rewrite Hstream. state_step.
  rewrite bool_decide_eq_true_2 by set_solver. cbv [negb]. state_step.
  rewrite Hup. state_step. reflexivity.
Qed.

Lemma rejected_upload_leaves_staging_file_witness :
  download_and_upload_pdf Scenario.doc2_rejected Scenario.doc2 (Scenario.drive [] 0)
  = (Ok tt,
     {| drive_folder := true; drive_files := []; drive_next_id := 0;
        disk := {["./downloads/doc2.pdf"]} ∪ ∅;
        todays_filenames := ∅;
        trace := [UploadCall "./downloads/doc2.pdf" false] |}).
Proof.
  exact (rejected_upload_leaves_staging_file Scenario.doc2_rejected Scenario.doc2
           (Scenario.drive [] 0)
           {| status_code := 200; content := Scenario.body None [] |}
           eq_refl eq_refl eq_refl eq_refl eq_refl).
Defined.

(** ** Reconciliation, once more *)

Lemma filter_none {A} (P : A -> Prop) `{!forall x, Decision (P x)} (l : list A) :
  (forall x, x ∈ l -> ~ P x) -> filter P l = [].
Proof.
  induction l as [|a l IH]; intros Hp; [reflexivity|].
  rewrite filter_cons_False by (apply Hp; left).
  apply IH. intros x Hx. apply Hp. now right.
Qed.

(** X5.  Running [clean_up_old_files] again with the same set, right after a run
    that returned, changes nothing and requests no deletion. *)
Theorem reconcile_twice_is_noop (e : Env) (todays : gset string) (s s' : State) :
  clean_up_old_files e todays s = (Ok tt, s') ->
  clean_up_old_files e todays s' = (Ok tt, s').
Proof.
  destruct (list_ok e) eqn:Hlist.
  2: { rewrite clean_up_no_listing by exact Hlist. discriminate. }
  rewrite !clean_up_run by exact Hlist.
  destruct (accepted_prefix e (outdated todays (drive_files s)))
    as [done rejected] eqn:Hpre.
  destruct (accepted_prefix_spec _ _ _ _ Hpre) as [_ Hrej].
  destruct rejected as [g|]; [discriminate|].
  intros [= <-]. subst done.
  assert (Hnone : outdated todays
                    (drive_files (after_deletes (outdated todays (drive_files s)) None s))
                  = []).
  { unfold after_deletes. state_fields. unfold outdated at 1.
    rewrite list_filter_filter. apply filter_none. intros g Hg [Hout Hid].
    apply Hid. apply list_elem_of_fmap_2. unfold outdated.
    now apply list_elem_of_filter. }
  rewrite Hnone. cbn [accepted_prefix]. now rewrite after_deletes_nil.
Qed.

Lemma reconcile_twice_is_noop_witness :
  let s := Scenario.drive [Scenario.old_pdf; {| file_id := 9; file_name := "new.pdf" |}] 10 in
  let s' := snd (clean_up_old_files Scenario.healthy {["new.pdf"]} s) in
  clean_up_old_files Scenario.healthy {["new.pdf"]} s' = (Ok tt, s').
Proof.
  intros s s'.
  apply (reconcile_twice_is_noop Scenario.healthy {["new.pdf"]} s s').
  vm_compute. reflexivity.
Defined.

(** ** The sitemap, all outcomes *)

Lemma locale_filter_outcome (urls : list (option string)) :
  locale_filter urls
  = if bool_decide (None ∈ urls) then Raise TypeError
    else Ok (filter (fun url => Str.contains "en-US" url = true) (omap id urls)).
Proof.
  induction urls as [|[url|] urls IH].
  - reflexivity.
  - cbn [locale_filter]. rewrite IH.
    assert (Hiff : None ∈ Some url :: urls <-> None ∈ urls).
    { rewrite elem_of_cons. split; [intros [H|H]; [discriminate|exact H] | auto]. }
    rewrite (bool_decide_ext _ _ Hiff).
    destruct (bool_decide (None ∈ urls)); [reflexivity|].
    change (omap id (Some url :: urls)) with (url :: omap id urls).
    rewrite filter_cons.
    destruct (Str.contains "en-US" url) eqn:C;
      destruct (decide _) as [D|D]; congruence.
  - cbn [locale_filter]. rewrite bool_decide_eq_true_2; [reflexivity | left].
Qed.

(** X6.  What [get_sitemap_urls] does in each case.  An unreachable sitemap, a
    document that is not well-formed and a [loc] element without text each
    end in an exception; a status other than 200 does not: it yields the
    empty list, as a sitemap without en-US entries does.  The state is never
    touched. *)
Theorem get_sitemap_urls_outcomes (e : Env) (sitemap_url : string) (s : State) :
  get_sitemap_urls e sitemap_url s
  = (match http_get e sitemap_url with
     | None => Raise ConnectionError
     | Some response =>
         if (status_code response =? 200)%Z then
           match xml_locs (content response) with
           | None => Raise ParseError
           | Some texts =>
               if bool_decide (None ∈ texts) then Raise TypeError
               else Ok (filter (fun url => Str.contains "en-US" url = true)
                               (omap id texts))
           end
         else Ok []
     end, s).
Proof.
  unfold get_sitemap_urls, requests_get.
  destruct (http_get e sitemap_url) as [response|]; monad; [|reflexivity].
  destruct (status_code response =? 200)%Z; cbv [negb]; [|reflexivity].
  destruct (xml_locs (content response)) as [texts|]; [|reflexivity].
  now rewrite locale_filter_outcome.
Qed.

Lemma get_sitemap_urls_state (e : Env) (sitemap_url : string) (s : State) :
  snd (get_sitemap_urls e sitemap_url s) = s.
Proof.
  unfold get_sitemap_urls, requests_get.
  destruct (http_get e sitemap_url) as [response|]; monad; [|reflexivity].
  destruct (negb _); [reflexivity|].
  now destruct (xml_locs (content response)).
Qed.

(** ** The main routine *)

(** X7.  When [get_sitemap_urls] raises (sitemap unreachable, not well-formed, or
    with an empty [loc]), [main] ends with that exception before it
    authenticates: nothing on Drive or on disk has changed. *)
Theorem main_stops_when_sitemap_raises (e : Env) (s : State) (x : Exn) :
  fst (get_sitemap_urls e SITEMAP_URL s) = Raise x ->
  main e s = (Raise x, s).
Proof.
  intros H. unfold main. monad.
  pose proof (get_sitemap_urls_state e SITEMAP_URL s) as Hs.
  destruct (get_sitemap_urls e SITEMAP_URL s) as [r s1].
  cbn [fst snd] in *. now subst.
Qed.

Lemma main_stops_when_sitemap_raises_witness :
  main Scenario.offline (Scenario.drive [Scenario.old_pdf] 10)
  = (Raise ConnectionError, Scenario.drive [Scenario.old_pdf] 10).
Proof.
  apply (main_stops_when_sitemap_raises Scenario.offline
           (Scenario.drive [Scenario.old_pdf] 10) ConnectionError).
  reflexivity.
Defined.

(** ** Step 5: the folder *)

(** X8.  [get_or_create_folder] creates the folder only when it is missing:
    calling it twice in a row is the same as calling it once, and it never
    touches the files or the id counter. *)
Theorem get_or_create_folder_idempotent (e : Env) (s : State) :
  (get_or_create_folder e ;; get_or_create_folder e) s = get_or_create_folder e s /\
  drive_files (snd (get_or_create_folder e s)) = drive_files s /\
  drive_next_id (snd (get_or_create_folder e s)) = drive_next_id s /\
  (fst (get_or_create_folder e s) = Ok tt ->
   drive_folder (snd (get_or_create_folder e s)) = true).
Proof.
  unfold get_or_create_folder.
  destruct s as [folder files next dsk tod tr].
  destruct (list_ok e), folder, (mkdir_ok e);
    cbv [negb]; state_step; cbn [fst snd]; state_fields; repeat split; auto;
    discriminate.
Qed.

Lemma folder_ready (e : Env) (s : State) :
  list_ok e = true -> drive_folder s = true \/ mkdir_ok e = true ->
  exists s' evs,
    get_or_create_folder e s = (Ok tt, s') /\
    drive_files s' = drive_files s /\ drive_next_id s' = drive_next_id s /\
    disk s' = disk s /\
    trace s' = (trace s ++ evs)%list /\ delete_calls evs = [].
Proof.
  intros Hlist Hready. unfold get_or_create_folder. rewrite Hlist. cbv [negb].
  state_step. destruct (drive_folder s).
  - exists s, []. rewrite app_nil_r. repeat split; reflexivity.
  - destruct Hready as [Hf|Hmk]; [discriminate|]. rewrite Hmk. state_step.
    eexists _, [FolderCreated]. split; [reflexivity|]. state_fields.
    repeat split; reflexivity.
Qed.

(** X9.  Whenever [get_sitemap_urls] returns the empty list (the status is not
    200, or no [loc] contains en-US) and Drive answers every call, [main]
    runs to the end with an empty [todays_filenames] and deletes every file
    of the folder, in listing order. *)
Theorem empty_url_list_empties_folder (e : Env) (s : State) :
  fst (get_sitemap_urls e SITEMAP_URL s) = Ok [] ->
  auth_ok e = true ->
  list_ok e = true ->
  drive_folder s = true \/ mkdir_ok e = true ->
  (forall f, f ∈ drive_files s -> delete_ok e (file_id f) = true) ->
  exists s' evs,
    main e s = (Ok tt, s') /\
    drive_files s' = [] /\
    todays_filenames s' = ∅ /\
    trace s' = (trace s ++ evs)%list /\
    delete_calls evs = drive_files s.
Proof.
  intros Hurls Hauth Hlist Hready Hdel.
  pose proof (get_sitemap_urls_state e SITEMAP_URL s) as Hs.
  destruct (folder_ready e s Hlist Hready)
    as (s1 & evs1 & Hfolder & Hfiles & _ & _ & Htrace & Hdel1).
  unfold main, authenticate_drive. rewrite Hauth. monad.
  destruct (get_sitemap_urls e SITEMAP_URL s) as [r s0].
  cbn [fst snd] in *. subst r s0. rewrite Hfolder.
  cbn [for_each]. monad.
  rewrite clean_up_run by exact Hlist.
  unfold with_todays. state_fields.
  rewrite Hfiles.
  assert (Hall : outdated ∅ (drive_files s) = drive_files s).
  { apply filter_all. intros f _. apply not_elem_of_empty. }
  rewrite Hall, accepted_prefix_all by (now apply Forall_forall).
  eexists _, _. split; [reflexivity|]. unfold after_deletes. state_fields.
  rewrite Htrace, app_nil_r, <- app_assoc.
  repeat split.
  - apply filter_none. intros f Hf Hnot. apply Hnot. now apply list_elem_of_fmap_2.
  - now rewrite delete_calls_app, Hdel1, delete_calls_deleted.
Qed.

Lemma empty_url_list_empties_folder_witness :
  exists s' evs,
    main Scenario.sitemap_down
      (Scenario.drive [Scenario.old_pdf; Scenario.older_pdf] 10) = (Ok tt, s') /\
    drive_files s' = [] /\
    todays_filenames s' = ∅ /\
    trace s' = ([] ++ evs)%list /\
    delete_calls evs = [Scenario.old_pdf; Scenario.older_pdf].
Proof.
  apply (empty_url_list_empties_folder Scenario.sitemap_down
           (Scenario.drive [Scenario.old_pdf; Scenario.older_pdf] 10)).
  - reflexivity.
  - reflexivity.
  - reflexivity.
  - left. reflexivity.
  - intros f _. reflexivity.
Defined.

(** ** Invariants of a run *)

Lemma preserves_bind {A B} (P : State -> Prop) (m : M A) (k : A -> M B) :
  preserves P m -> (forall a, preserves P (k a)) -> preserves P (bind m k).
Proof.
  intros Hm Hk s Hs. unfold bind. specialize (Hm s Hs).
  destruct (m s) as [[a|x] s1]; cbn [snd] in *; [now apply Hk | exact Hm].
Qed.

Lemma preserves_for_each {A} (P : State -> Prop) (body : A -> M unit)
    (l : list A) :
  (forall x, preserves P (body x)) -> preserves P (for_each l body).
Proof.
  intros Hbody. induction l as [|x l IH]; cbn [for_each].
  - intros s Hs. exact Hs.
  - apply preserves_bind; [apply Hbody | intros _; exact IH].
Qed.

Lemma for_each_returns {A} (body : A -> M unit) (l : list A) (s : State) :
  (forall x s, fst (body x s) = Ok tt) -> fst (for_each l body s) = Ok tt.
Proof.
  intros Hbody. revert s. induction l as [|x l IH]; intros s; cbn [for_each].
  - reflexivity.
  - unfold bind. specialize (Hbody x s).
    destruct (body x s) as [[[]|y] s1]; cbn [fst] in *; [apply IH | discriminate].
Qed.

Lemma find_pdf_links_state (e : Env) (page_url : string) (s : State) :
  exists links, find_pdf_links e page_url s = (Ok links, s).
Proof.
  unfold find_pdf_links, requests_get.
  destruct (http_get e page_url) as [response|]; monad; [|now eexists].
  destruct (negb _); [now eexists|].
  destruct (collect_pdf_links e page_url (hrefs (content response)));
    [|now eexists].
  destruct (collect_pdf_links e page_url (srcs (content response)));
    now eexists.
Qed.

Lemma extends_refl (s : State) : extends s s.
Proof.
  exists [], []. rewrite !app_nil_r. cbn. repeat split; try reflexivity.
  - lia.
  - set_solver.
Qed.

Lemma extends_trans (s0 s1 s2 : State) :
  extends s0 s1 -> extends s1 s2 -> extends s0 s2.
Proof.
  intros (n1 & ev1 & Hf1 & Hid1 & Hn1 & Ht1 & Hd1 & Htr1 & Hdel1)
         (n2 & ev2 & Hf2 & Hid2 & Hn2 & Ht2 & Hd2 & Htr2 & Hdel2).
  exists (n1 ++ n2)%list, (ev1 ++ ev2)%list.
  rewrite Hf2, Hf1, Hn2, Hn1, Ht2, Ht1, Hd2, Hd1, Htr2, Htr1.
  rewrite !fmap_app, length_app, seq_app, Hid1, Hid2, Hn1.
  rewrite delete_calls_app, Hdel1, Hdel2, list_to_set_app_L, !app_assoc.
  repeat split; try reflexivity; [lia | set_solver].
Qed.

Lemma download_extends (e : Env) (pdf_url : string) (s : State) :
  extends s (snd (download_and_upload_pdf e pdf_url s)).
Proof.
  destruct (doc_accepted e (drive_next_id s) pdf_url) eqn:Hacc.
  - rewrite download_accepted_run by exact Hacc. cbn [snd].
    eexists [_], [_]. state_fields. cbn [length].
    repeat split; try reflexivity; [lia | set_solver].
  - destruct (download_not_accepted e pdf_url s Hacc)
      as (s' & evs & -> & Hd & Hf & Hn & Ht & Htr & Hdel).
    cbn [snd]. exists [], evs. rewrite Hf, Hn, Ht, Hd, Htr, app_nil_r. cbn.
    repeat split; try reflexivity; [lia | set_solver | exact Hdel].
Qed.

Lemma download_returns (e : Env) (pdf_url : string) (s : State) :
  fst (download_and_upload_pdf e pdf_url s) = Ok tt.
Proof.
  destruct (doc_accepted e (drive_next_id s) pdf_url) eqn:Hacc.
  - now rewrite download_accepted_run by exact Hacc.
  - now destruct (download_not_accepted e pdf_url s Hacc) as (s' & evs & -> & _).
Qed.

Lemma scan_page_returns (e : Env) (url : string) (s : State) :
  fst (scan_page e url s) = Ok tt.
Proof.
  unfold scan_page, bind.
  destruct (find_pdf_links_state e url s) as [links ->].
  destruct links; [reflexivity|]. apply for_each_returns, download_returns.
Qed.

Lemma scan_page_extends (e : Env) (s0 : State) (url : string) :
  preserves (extends s0) (scan_page e url).
Proof.
  intros s Hs. unfold scan_page, bind.
  destruct (find_pdf_links_state e url s) as [links ->].
  destruct links as [|link links]; [exact Hs|].
  apply (preserves_for_each (extends s0)); [|exact Hs].
  intros pdf_url s1 H1. eapply extends_trans; [exact H1 | apply download_extends].
Qed.

Lemma bind_returns {A B} (m : M A) (k : A -> M B) (s s' : State) (b : B) :
  bind m k s = (Ok b, s') ->
  exists a s1, m s = (Ok a, s1) /\ k a s1 = (Ok b, s').
Proof.
  unfold bind. destruct (m s) as [[a|x] s1]; [|discriminate].
  intros H. now exists a, s1.
Qed.

Lemma folder_result (e : Env) (s s1 : State) :
  get_or_create_folder e s = (Ok tt, s1) ->
  drive_files s1 = drive_files s /\ drive_next_id s1 = drive_next_id s /\
  exists evs, trace s1 = (trace s ++ evs)%list /\ delete_calls evs = [].
Proof.
  unfold get_or_create_folder. destruct s as [folder files next dsk tod tr].
  destruct (list_ok e), folder, (mkdir_ok e);
    cbv [negb]; state_step; intros [= <-]; state_fields;
    repeat split; try reflexivity.
  all: try (exists []; now rewrite app_nil_r).
  all: now exists [FolderCreated].
Qed.

Lemma pages_loop (e : Env) (urls : list string) (s : State) :
  exists sL, for_each urls (scan_page e) s = (Ok tt, sL) /\ extends s sL.
Proof.
  pose proof (for_each_returns (scan_page e) urls s (scan_page_returns e)) as Hret.
  pose proof (preserves_for_each (extends s) (scan_page e) urls
                (scan_page_extends e s) s (extends_refl s)) as Hext.
  destruct (for_each urls (scan_page e) s) as [r sL]. cbn [fst snd] in *.
  subst r. now exists sL.
Qed.

(** The phases of a run of [main] that returns. *)
Lemma main_completed (e : Env) (s s' : State) :
  main e s = (Ok tt, s') ->
  exists urls s1 sL,
    fst (get_sitemap_urls e SITEMAP_URL s) = Ok urls /\
    get_or_create_folder e s = (Ok tt, s1) /\
    sL = snd (for_each urls (scan_page e) (with_todays ∅ s1)) /\
    extends (with_todays ∅ s1) sL /\
    clean_up_old_files e (todays_filenames sL) sL = (Ok tt, s').
Proof.
  unfold main. intros H.
  apply bind_returns in H as (urls & s0 & Hurls & H).
  pose proof (get_sitemap_urls_state e SITEMAP_URL s) as Hs.
  rewrite Hurls in Hs. cbn [snd] in Hs. subst s0.
  assert (Hfst : fst (get_sitemap_urls e SITEMAP_URL s) = Ok urls)
    by now rewrite Hurls.
  clear Hurls.
  apply bind_returns in H as ([] & s0 & Hauth & H).
  unfold authenticate_drive in Hauth. destruct (auth_ok e); [|discriminate].
  injection Hauth as <-.
  apply bind_returns in H as ([] & s1 & Hfolder & H).
  apply bind_returns in H as ([] & s2 & Hreset & H).
  injection Hreset as <-.
  apply bind_returns in H as ([] & sL & Hloop & H).
  apply bind_returns in H as (sL' & sL'' & Hget & H).
  injection Hget as <- <-.
  destruct (pages_loop e urls (with_todays ∅ s1)) as (sL0 & Hrun & Hext).
  rewrite Hrun in Hloop. injection Hloop as <-.
  exists urls, s1, sL0. rewrite Hrun. auto.
Qed.

Lemma appended_wf (s0 s : State) (new : list RemoteFile) :
  drive_wf s0 ->
  drive_files s = (drive_files s0 ++ new)%list ->
  file_id <$> new = seq (drive_next_id s0) (length new) ->
  drive_next_id s = drive_next_id s0 + length new ->
  drive_wf s.
Proof.
  intros [Hnd Hlt] Hf Hid Hn.
  unfold drive_wf. rewrite Hf, Hn, fmap_app. split.
  - apply NoDup_app. split; [exact Hnd|]. split; [|rewrite Hid; apply NoDup_seq].
    intros x Hx. rewrite Hid, elem_of_seq.
    apply list_elem_of_fmap in Hx as (f & -> & Hin).
    rewrite Forall_forall in Hlt. specialize (Hlt f Hin). lia.
  - apply Forall_app. split.
    + eapply Forall_impl; [exact Hlt|]. intros f Hf'. cbn in Hf'. lia.
    + apply Forall_forall. intros f Hin.
      assert (Hx : file_id f ∈ file_id <$> new) by now apply list_elem_of_fmap_2.
      rewrite Hid, elem_of_seq in Hx. lia.
Qed.

Lemma extends_wf (s0 s : State) : drive_wf s0 -> extends s0 s -> drive_wf s.
Proof.
  intros Hwf (new & evs & Hf & Hid & Hn & _). now apply (appended_wf s0 s new).
Qed.

Lemma NoDup_ids_filter (P : RemoteFile -> Prop) `{!forall f, Decision (P f)}
    (l : list RemoteFile) :
  NoDup (file_id <$> l) -> NoDup (file_id <$> filter P l).
Proof.
  induction l as [|f l IH]; [intros _; constructor|].
  rewrite fmap_cons, NoDup_cons. intros [Hf Hnd]. rewrite filter_cons.
  destruct (decide (P f)); [|now apply IH].
  rewrite fmap_cons. apply NoDup_cons. split; [|now apply IH].
  intros Hin. apply Hf. apply list_elem_of_fmap in Hin as (g & Hid & Hg).
  apply list_elem_of_filter in Hg as [_ Hg]. rewrite Hid.
  now apply list_elem_of_fmap_2.
Qed.

Lemma wf_filter (P : RemoteFile -> Prop) `{!forall f, Decision (P f)}
    (s s' : State) :
  drive_wf s -> drive_files s' = filter P (drive_files s) ->
  drive_next_id s' = drive_next_id s -> drive_wf s'.
Proof.
  intros [Hnd Hlt] Hf Hn. unfold drive_wf. rewrite Hf, Hn. split.
  - now apply NoDup_ids_filter.
  - apply Forall_forall. intros f Hin. apply list_elem_of_filter in Hin as [_ Hin].
    rewrite Forall_forall in Hlt. now apply Hlt.
Qed.

Lemma clean_up_preserves_wf (e : Env) (todays : gset string) :
  preserves drive_wf (clean_up_old_files e todays).
Proof.
  intros s Hwf. destruct (list_ok e) eqn:Hlist.
  - rewrite clean_up_run by exact Hlist.
    destruct (accepted_prefix e _) as [done rejected]. cbn [snd].
    eapply wf_filter; [exact Hwf | reflexivity | reflexivity].
  - now rewrite clean_up_no_listing by exact Hlist.
Qed.

Lemma main_preserves_wf (e : Env) : preserves drive_wf (main e).
Proof.
  unfold main.
  apply preserves_bind.
  { intros s Hwf. now rewrite get_sitemap_urls_state. }
  intros urls. apply preserves_bind.
  { intros s Hwf. unfold authenticate_drive. now destruct (auth_ok e). }
  intros _. apply preserves_bind.
  { intros s Hwf. unfold get_or_create_folder. destruct s as [folder files next dsk tod tr].
    destruct (list_ok e), folder, (mkdir_ok e); cbv [negb]; state_step; exact Hwf. }
  intros _. apply preserves_bind.
  { intros s Hwf. exact Hwf. }
  intros _. apply preserves_bind.
  { intros s Hwf. destruct (pages_loop e urls s) as (sL & -> & Hext).
    cbn [snd]. now apply (extends_wf s). }
  intros _. apply preserves_bind.
  { intros s Hwf. exact Hwf. }
  intros s0. apply clean_up_preserves_wf.
Qed.

(** X10.  Through a whole run of [main], however it ends, the files of the folder
    keep ids of their own, all below the id Drive assigns next; so do they
    through any number of runs in a row. *)
Theorem main_keeps_ids_unique (e : Env) (n : nat) (s : State) :
  drive_wf s -> drive_wf (Nat.iter n (fun s => snd (main e s)) s).
Proof.
  intros Hwf. induction n as [|n IH]; cbn [Nat.iter]; [exact Hwf|].
  now apply main_preserves_wf.
Qed.

Lemma main_keeps_ids_unique_witness :
  drive_wf (Nat.iter 2 (fun s => snd (main Scenario.healthy s))
              (Scenario.drive [Scenario.old_pdf] 10)).
Proof.
  apply (main_keeps_ids_unique Scenario.healthy 2 (Scenario.drive [Scenario.old_pdf] 10)).
  split; [concrete_nodup|]. repeat constructor.
Defined.

(** What a run of [main] that returns leaves behind, in full. *)
Lemma completed_run (e : Env) (s s' : State) :
  drive_wf s ->
  main e s = (Ok tt, s') ->
  exists new evs,
    drive_files s' = (kept (todays_filenames s') (drive_files s) ++ new)%list /\
    file_id <$> new = seq (drive_next_id s) (length new) /\
    todays_filenames s' = list_to_set (file_name <$> new) /\
    remote_names s' = todays_filenames s' /\
    trace s' = (trace s ++ evs)%list /\
    delete_calls evs = outdated (todays_filenames s') (drive_files s).
Proof.
  intros Hwf Hmain.
  destruct (main_completed e s s' Hmain)
    as (urls & s1 & sL & _ & Hfolder & _ & Hext & Hclean).
  destruct (folder_result e s s1 Hfolder) as (Hf1 & Hn1 & evs1 & Htr1 & Hdel1).
  assert (HwfL : drive_wf sL).
  { apply (extends_wf (with_todays ∅ s1)); [|exact Hext].
    unfold drive_wf, with_todays. state_fields. now rewrite Hf1, Hn1. }
  destruct Hext as (new & evs2 & HfL & Hid & _ & HtL & _ & HtrL & Hdel2).
  unfold with_todays in HfL, Hid, HtL, HtrL.
  cbn [drive_folder drive_files drive_next_id disk todays_filenames trace]
    in HfL, Hid, HtL, HtrL.
  rewrite Hf1 in HfL. rewrite Hn1 in Hid. rewrite Htr1 in HtrL.
  assert (HT : todays_filenames sL = list_to_set (file_name <$> new))
    by (rewrite HtL; set_solver).
  destruct (list_ok e) eqn:Hlist.
  2: { rewrite clean_up_no_listing in Hclean by exact Hlist. discriminate. }
  rewrite clean_up_run in Hclean by exact Hlist.
  destruct (accepted_prefix e (outdated (todays_filenames sL) (drive_files sL)))
    as [done rejected] eqn:Hpre.
  destruct (accepted_prefix_spec _ _ _ _ Hpre) as [_ Hrej].
  destruct rejected as [g|]; [discriminate|]. subst done.
  injection Hclean as <-. unfold after_deletes. state_fields.
  set (T := todays_filenames sL) in *.
  assert (Hnew : forall f, f ∈ new -> file_name f ∈ T).
  { intros f Hin. rewrite HT. apply elem_of_list_to_set.
    now apply list_elem_of_fmap_2. }
  assert (Hout : outdated T (drive_files sL) = outdated T (drive_files s)).
  { rewrite HfL. unfold outdated. rewrite filter_app.
    rewrite (filter_none _ new) by (intros f Hin Hno; now apply Hno, Hnew).
    apply app_nil_r. }
  assert (Hkept : filter (fun g => file_id g ∉ file_id <$> outdated T (drive_files sL))
                    (drive_files sL)
                  = (kept T (drive_files s) ++ new)%list).
  { rewrite (filter_deleted_ids T) by (try apply HwfL; set_solver).
    rewrite outdated_kept_split, HfL. unfold kept. rewrite filter_app.
    now rewrite (filter_all _ new) by exact Hnew. }
  exists new, (evs1 ++ evs2 ++ ((fun f => DeleteCall f true) <$> outdated T (drive_files sL)))%list.
  rewrite Hkept. repeat split.
  - exact Hid.
  - exact HT.
  - unfold remote_names. state_fields. rewrite fmap_app, list_to_set_app_L, <- HT.
    apply set_eq. intros x. rewrite elem_of_union, elem_of_list_to_set.
    split; [|auto]. intros [Hx|Hx]; [|exact Hx].
    apply list_elem_of_fmap in Hx as (f & -> & Hin).
    unfold kept in Hin. now apply list_elem_of_filter in Hin as [Hin _].
  - rewrite HtrL, app_nil_r, <- !app_assoc. reflexivity.
  - rewrite !delete_calls_app, Hdel1, Hdel2, delete_calls_deleted. exact Hout.
Qed.

(** X11.  What a run of [main] that returns leaves behind.  The folder holds
    the files [new] uploaded in this run, appended under ids that were not
    in use, after those of its previous files that were kept;
    [todays_filenames] is the set of the names of [new], and so is the set
    of the names in the folder.  A file that was in the folder before the
    run is still there if and only if a file of its name was uploaded in
    this run; the deletions requested are those of the other previous
    files, in listing order; no uploaded file is one of the previous
    files. *)
Theorem completed_run_mirrors_uploads (e : Env) (s s' : State) :
  drive_wf s ->
  main e s = (Ok tt, s') ->
  exists new evs,
    drive_files s'
    = (kept (list_to_set (file_name <$> new)) (drive_files s) ++ new)%list /\
    file_id <$> new = seq (drive_next_id s) (length new) /\
    todays_filenames s' = list_to_set (file_name <$> new) /\
    remote_names s' = list_to_set (file_name <$> new) /\
    (forall f, f ∈ drive_files s ->
               (f ∈ drive_files s' <-> file_name f ∈ file_name <$> new)) /\
    (forall f, f ∈ new -> f ∉ drive_files s) /\
    trace s' = (trace s ++ evs)%list /\
    delete_calls evs
    = filter (fun f => file_name f ∉ file_name <$> new) (drive_files s).
Proof.
  intros Hwf Hmain.
  destruct (completed_run e s s' Hwf Hmain)
    as (new & evs & Hfiles & Hid & HT & Hnames & Htrace & Hdel).
  assert (Hfresh : forall f, f ∈ new -> drive_next_id s <= file_id f).
  { intros f Hin.
    assert (Hx : file_id f ∈ file_id <$> new) by now apply list_elem_of_fmap_2.
    rewrite Hid, elem_of_seq in Hx. lia. }
  assert (Hold : forall f, f ∈ drive_files s -> f ∉ new).
  { intros f Hin Hnew. destruct Hwf as [_ Hlt]. rewrite Forall_forall in Hlt.
    specialize (Hlt f Hin). specialize (Hfresh f Hnew). lia. }
  exists new, evs. rewrite HT in Hfiles, Hnames, Hdel.
  split; [exact Hfiles|]. split; [exact Hid|]. split; [exact HT|].
  split; [exact Hnames|]. split; [|split; [|split]].
  - intros f Hin. rewrite Hfiles, elem_of_app. unfold kept.
    rewrite list_elem_of_filter, elem_of_list_to_set. split; [|tauto].
    intros [[Hname _]|Hnew]; [exact Hname | now destruct (Hold f Hin)].
  - intros f Hnew Hin. exact (Hold f Hin Hnew).
  - exact Htrace.
  - rewrite Hdel. unfold outdated. apply filter_ext_in. intros f _.
    now rewrite elem_of_list_to_set.
Qed.

Lemma completed_run_mirrors_uploads_witness :
  let s := Scenario.drive [Scenario.old_doc2; Scenario.old_pdf] 10 in
  let s' := snd (main Scenario.healthy s) in
  exists new evs,
    drive_files s'
    = (kept (list_to_set (file_name <$> new)) (drive_files s) ++ new)%list /\
    file_id <$> new = seq (drive_next_id s) (length new) /\
    todays_filenames s' = list_to_set (file_name <$> new) /\
    remote_names s' = list_to_set (file_name <$> new) /\
    (forall f, f ∈ drive_files s ->
               (f ∈ drive_files s' <-> file_name f ∈ file_name <$> new)) /\
    (forall f, f ∈ new -> f ∉ drive_files s) /\
    trace s' = (trace s ++ evs)%list /\
    delete_calls evs
    = filter (fun f => file_name f ∉ file_name <$> new) (drive_files s).
Proof.
  intros s s'.
  apply (completed_run_mirrors_uploads Scenario.healthy s s').
  - split; [concrete_nodup|]. repeat constructor.
  - vm_compute. reflexivity.
Defined.

(** The same run, computed: the [doc2.pdf] of an earlier run is kept beside
    the two uploads, and [old.pdf] is deleted. *)
Example completed_run_scenario :
  let s' := snd (main Scenario.healthy
                   (Scenario.drive [Scenario.old_doc2; Scenario.old_pdf] 10)) in
  take 1 (drive_files s') = [Scenario.old_doc2] /\
  file_id <$> drop 1 (drive_files s') = [10; 11] /\
  delete_calls (trace s') = [Scenario.old_pdf].
Proof. repeat split; vm_compute; reflexivity. Qed.

(** ** Two runs in a row *)

Lemma find_pdf_links_pure (e : Env) (page_url : string) :
  exists links, forall s, find_pdf_links e page_url s = (Ok links, s).
Proof.
  unfold find_pdf_links, requests_get.
  destruct (http_get e page_url) as [response|]; monad; [|now eexists].
  destruct (negb _); [now eexists|].
  destruct (collect_pdf_links e page_url (hrefs (content response)));
    [|now eexists].
  destruct (collect_pdf_links e page_url (srcs (content response)));
    now eexists.
Qed.

Lemma get_sitemap_urls_result (e : Env) (sitemap_url : string) (s t : State) :
  fst (get_sitemap_urls e sitemap_url s) = fst (get_sitemap_urls e sitemap_url t).
Proof.
  unfold get_sitemap_urls, requests_get.
  destruct (http_get e sitemap_url) as [response|]; monad; [|reflexivity].
  destruct (negb _); [reflexivity|].
  now destruct (xml_locs (content response)).
Qed.

Lemma for_each_agree {A} (R : State -> State -> Prop) (body : A -> M unit)
    (l : list A) :
  (forall x s, fst (body x s) = Ok tt) ->
  (forall x s t, R s t -> R (snd (body x s)) (snd (body x t))) ->
  forall s t, R s t -> R (snd (for_each l body s)) (snd (for_each l body t)).
Proof.
  intros Hret Hbody. induction l as [|x l IH]; intros s t Hst; cbn [for_each].
  - exact Hst.
  - unfold bind. specialize (Hbody x s t Hst).
    pose proof (Hret x s) as Hs. pose proof (Hret x t) as Ht.
    destruct (body x s) as [[[]|y] s1]; [|discriminate].
    destruct (body x t) as [[[]|y] t1]; [|discriminate].
    cbn [snd] in Hbody. now apply IH.
Qed.

Lemma doc_accepted_stable (e : Env) (n m : nat) (pdf_url : string) :
  stable_uploads e -> doc_accepted e n pdf_url = doc_accepted e m pdf_url.
Proof.
  intros Hst. unfold doc_accepted. destruct (http_get e pdf_url); [|reflexivity].
  now rewrite (Hst n m).
Qed.

Lemma download_agree (e : Env) (pdf_url : string) (s t : State) :
  stable_uploads e ->
  todays_filenames s = todays_filenames t ->
  todays_filenames (snd (download_and_upload_pdf e pdf_url s))
  = todays_filenames (snd (download_and_upload_pdf e pdf_url t)).
Proof.
  intros Hst Heq.
  pose proof (doc_accepted_stable e (drive_next_id s) (drive_next_id t) pdf_url Hst)
    as Hacc.
  destruct (doc_accepted e (drive_next_id t) pdf_url) eqn:Ht.
  - rewrite !download_accepted_run by assumption. cbn [snd]. state_fields.
    now rewrite Heq.
  - destruct (download_not_accepted e pdf_url s Hacc)
      as (s' & ? & -> & _ & _ & _ & Hs' & _).
    destruct (download_not_accepted e pdf_url t Ht)
      as (t' & ? & -> & _ & _ & _ & Ht' & _).
    cbn [snd]. now rewrite Hs', Ht'.
Qed.

Lemma scan_page_agree (e : Env) (url : string) (s t : State) :
  stable_uploads e ->
  todays_filenames s = todays_filenames t ->
  todays_filenames (snd (scan_page e url s))
  = todays_filenames (snd (scan_page e url t)).
Proof.
  intros Hst Heq. unfold scan_page, bind.
  destruct (find_pdf_links_pure e url) as [links Hlinks]. rewrite !Hlinks.
  destruct links as [|link links]; [exact Heq|].
  apply (for_each_agree (fun s t => todays_filenames s = todays_filenames t));
    [apply download_returns | | exact Heq].
  intros x s1 t1. now apply download_agree.
Qed.

(** X12.  A second run of [main] right after one that returned, with the site
    unchanged and Drive accepting the same uploads: it uploads every
    document again as a further file, so the folder grows while the set of
    its names stays the same, and it requests no deletion. *)
Theorem second_run_uploads_again (e : Env) (s s1 s2 : State) :
  stable_uploads e ->
  drive_wf s ->
  main e s = (Ok tt, s1) ->
  main e s1 = (Ok tt, s2) ->
  todays_filenames s2 = todays_filenames s1 /\
  remote_names s2 = remote_names s1 /\
  exists new evs,
    drive_files s2 = (drive_files s1 ++ new)%list /\
    list_to_set (file_name <$> new) = todays_filenames s1 /\
    trace s2 = (trace s1 ++ evs)%list /\
    delete_calls evs = [].
Proof.
  intros Hst Hwf Hrun1 Hrun2.
  assert (Hwf1 : drive_wf s1).
  { pose proof (main_preserves_wf e s Hwf) as H. now rewrite Hrun1 in H. }
  destruct (completed_run e s s1 Hwf Hrun1)
    as (new1 & evs1 & Hfiles1 & _ & HT1 & Hnames1 & _ & _).
  destruct (completed_run e s1 s2 Hwf1 Hrun2)
    as (new2 & evs2 & Hfiles2 & _ & HT2 & Hnames2 & Htrace2 & Hdel2).
  assert (Hsame : todays_filenames s2 = todays_filenames s1).
  { destruct (main_completed e s s1 Hrun1)
      as (urls1 & a1 & L1 & Hu1 & _ & HL1 & _ & Hc1).
    destruct (main_completed e s1 s2 Hrun2)
      as (urls2 & a2 & L2 & Hu2 & _ & HL2 & _ & Hc2).
    assert (Hurls : urls2 = urls1).
    { rewrite (get_sitemap_urls_result e SITEMAP_URL s1 s), Hu1 in Hu2.
      now injection Hu2. }
    subst urls2.
    assert (HL : todays_filenames L2 = todays_filenames L1).
    { subst L1 L2.
      apply (for_each_agree (fun s t => todays_filenames s = todays_filenames t));
        [apply scan_page_returns | | reflexivity].
      intros x u v. now apply scan_page_agree. }
    assert (Hend : forall T L r, clean_up_old_files e T L = (Ok tt, r) ->
                                 todays_filenames r = todays_filenames L).
    { intros T L r Hc. destruct (list_ok e) eqn:Hlist.
      - rewrite clean_up_run in Hc by exact Hlist.
        destruct (accepted_prefix e _) as [done rej]. now injection Hc as _ <-.
      - rewrite clean_up_no_listing in Hc by exact Hlist. discriminate. }
    now rewrite (Hend _ _ _ Hc1), (Hend _ _ _ Hc2). }
  split; [exact Hsame|]. split; [now rewrite Hnames2, Hnames1|].
  assert (Hall : forall f, f ∈ drive_files s1 -> file_name f ∈ todays_filenames s1).
  { intros f Hin. rewrite <- Hnames1. unfold remote_names.
    apply elem_of_list_to_set. now apply list_elem_of_fmap_2. }
  exists new2, evs2. rewrite Hsame in *. repeat split.
  - rewrite Hfiles2. unfold kept. now rewrite filter_all by exact Hall.
  - now rewrite <- HT2.
  - exact Htrace2.
  - rewrite Hdel2. apply filter_none. intros f Hin Hno. now apply Hno, Hall.
Qed.

Lemma second_run_uploads_again_witness :
  let s := Scenario.drive [Scenario.old_pdf] 10 in
  let s1 := snd (main Scenario.healthy s) in
  let s2 := snd (main Scenario.healthy s1) in
  todays_filenames s2 = todays_filenames s1 /\
  remote_names s2 = remote_names s1 /\
  exists new evs,
    drive_files s2 = (drive_files s1 ++ new)%list /\
    list_to_set (file_name <$> new) = todays_filenames s1 /\
    trace s2 = (trace s1 ++ evs)%list /\
    delete_calls evs = [].
Proof.
  intros s s1 s2.
  apply (second_run_uploads_again Scenario.healthy s s1 s2).
  - intros n m path. reflexivity.
  - split; [concrete_nodup|]. repeat constructor.
  - vm_compute. reflexivity.
  - vm_compute. reflexivity.
Defined.

(** The scenario of two daily runs: every document is on Drive twice. *)
Example two_runs_two_copies :
  drive_files (snd (main Scenario.healthy
                      (snd (main Scenario.healthy (Scenario.drive [] 0)))))
  = [ {| file_id := 0; file_name := "doc1.pdf" |};
      {| file_id := 1; file_name := "doc2.pdf" |};
      {| file_id := 2; file_name := "doc1.pdf" |};
      {| file_id := 3; file_name := "doc2.pdf" |} ].
Proof. vm_compute. reflexivity. Qed.

(** ** Step 2: what counts as a PDF link *)

Lemma lower_app (a b : string) : Str.lower (a ++ b) = Str.lower a ++ Str.lower b.
Proof.
  induction a as [|c a IH]; [reflexivity|].
  change (String c a ++ b) with (String c (a ++ b)).
  cbn [Str.lower]. rewrite IH. reflexivity.
Qed.

(** X13.  [is_pdf_url] raises exactly when [urljoin] does; it answers [True]
    exactly when the joined URL, put in lower case, has [.pdf] somewhere
    in it, or [mimetypes] guesses [application/pdf] for it. *)
Theorem is_pdf_url_accepts_iff (e : Env) (href base_url : string) :
  (is_pdf_url e href base_url = Raise ValueError <-> urljoin e base_url href = None) /\
  (is_pdf_url e href base_url = Ok true <->
   exists full_url,
     urljoin e base_url href = Some full_url /\
     ((exists pre post, Str.lower full_url = pre ++ ".pdf" ++ post) \/
      guess_type e full_url = Some "application/pdf")).
Proof.
  unfold is_pdf_url. destruct (urljoin e base_url href) as [full|].
  - split.
    + split; [|discriminate]. now destruct (Str.contains _ _).
    + destruct (Str.contains ".pdf" (Str.lower full)) eqn:C.
      * split; [|reflexivity]. intros _. exists full. split; [reflexivity|].
        left. now apply contains_spec.
      * split.
        -- intros [= H]. apply bool_decide_eq_true in H. exists full. auto.
        -- intros (full' & [= <-] & [Hm|Hg]).
           ++ apply contains_spec in Hm. congruence.
           ++ f_equal. now apply bool_decide_eq_true.
  - split; [tauto|]. split; [discriminate|]. now intros (full & H & _).
Qed.

(** X14.  The marker is looked for in the whole URL and in any letter case: a
    reference is taken for a PDF as soon as [.pdf], [.PDF], ... occurs
    anywhere in its joined URL, be it in a directory name or a query. *)
Theorem is_pdf_url_marker_anywhere (e : Env) (href base_url : string)
    (pre marker post : string) :
  urljoin e base_url href = Some (pre ++ marker ++ post) ->
  Str.lower marker = ".pdf" ->
  is_pdf_url e href base_url = Ok true.
Proof.
  intros Hjoin Hmarker. unfold is_pdf_url. rewrite Hjoin.
  assert (C : Str.contains ".pdf" (Str.lower (pre ++ marker ++ post)) = true).
  { apply contains_spec. exists (Str.lower pre), (Str.lower post).
    now rewrite !lower_app, Hmarker. }
  now rewrite C.
Qed.

Lemma is_pdf_url_marker_anywhere_witness :
  is_pdf_url Scenario.healthy Scenario.notes_in_pdf_dir Scenario.page_a = Ok true.
Proof.
  apply (is_pdf_url_marker_anywhere Scenario.healthy Scenario.notes_in_pdf_dir
           Scenario.page_a "https://example.com/my" ".PDF" "s/notes.txt").
  - reflexivity.
  - reflexivity.
Defined.

(** ** File names *)

Lemma has_slash_app (a b : string) :
  Str.has_slash (a ++ b) = Str.has_slash a || Str.has_slash b.
Proof.
  induction a as [|c a IH]; [reflexivity|].
  change (String c a ++ b) with (String c (a ++ b)).
  cbn [Str.has_slash]. now rewrite IH, orb_assoc.
Qed.

(** X15.  The file name is cut from the URL as a string: a query that follows the
    last path segment becomes part of the name of the file on Drive. *)
Theorem query_string_stays_in_filename (e : Env) (s : State)
    (dir segment query : string) :
  let pdf_url := dir ++ "/" ++ segment ++ "?" ++ query in
  Str.has_slash segment = false ->
  Str.has_slash query = false ->
  doc_accepted e (drive_next_id s) pdf_url = true ->
  drive_files (snd (download_and_upload_pdf e pdf_url s))
  = (drive_files s ++ [{| file_id := drive_next_id s;
                          file_name := segment ++ "?" ++ query |}])%list.
Proof.
  intros pdf_url Hseg Hquery Hacc.
  rewrite download_accepted_run by exact Hacc. cbn [snd]. state_fields.
  subst pdf_url. rewrite basename_after_slash; [reflexivity|].
  rewrite has_slash_app, Hseg.
  change ("?" ++ query) with (String "?" query). cbn [Str.has_slash orb].
  now rewrite Hquery.
Qed.

Lemma query_string_stays_in_filename_witness :
  drive_files (snd (download_and_upload_pdf Scenario.healthy Scenario.doc_query
                      (Scenario.drive [] 0)))
  = [{| file_id := 0; file_name := "doc1.pdf?v=2" |}].
Proof.
  apply (query_string_stays_in_filename Scenario.healthy (Scenario.drive [] 0)
           "https://example.com/docs" "doc1.pdf" "v=2").
  - reflexivity.
  - reflexivity.
  - reflexivity.
Defined.

(** X16.  Two documents whose URLs end in the same file name do not replace one
    another: both are uploaded, as two Drive files of that one name, and the
    name is in [todays_filenames] once. *)
Theorem same_name_documents_pile_up (e : Env) (s : State) (url1 url2 : string) :
  let name := OsPath.basename url1 in
  let s' := snd (download_and_upload_pdf e url2
                   (snd (download_and_upload_pdf e url1 s))) in
  OsPath.basename url2 = name ->
  doc_accepted e (drive_next_id s) url1 = true ->
  doc_accepted e (S (drive_next_id s)) url2 = true ->
  drive_files s'
  = (drive_files s ++ [{| file_id := drive_next_id s; file_name := name |};
                       {| file_id := S (drive_next_id s); file_name := name |}])%list /\
  todays_filenames s' = {[name]} ∪ todays_filenames s.
Proof.
  intros name s' Hname Hacc1 Hacc2. subst s'.
  rewrite (download_accepted_run e url1 s) by exact Hacc1. cbn [snd].
  rewrite download_accepted_run by exact Hacc2. cbn [snd]. state_fields.
  rewrite Hname. fold name. split.
  - now rewrite <- app_assoc.
  - set_solver.
Qed.

Lemma same_name_documents_pile_up_witness :
  let s' := snd (download_and_upload_pdf Scenario.with_archive Scenario.doc1_archive
                   (snd (download_and_upload_pdf Scenario.with_archive Scenario.doc1
                           (Scenario.drive [] 0)))) in
  drive_files s' = [{| file_id := 0; file_name := "doc1.pdf" |};
                    {| file_id := 1; file_name := "doc1.pdf" |}] /\
  todays_filenames s' = {["doc1.pdf"]} ∪ ∅.
Proof.
  apply (same_name_documents_pile_up Scenario.with_archive (Scenario.drive [] 0)
           Scenario.doc1 Scenario.doc1_archive).
  - reflexivity.
  - reflexivity.
  - reflexivity.
Defined.

(** ** What can and what cannot stop a run *)

(** X17.  The sitemap is fetched before anything else: when authentication
    fails, [main] ends with [AuthError] and has touched neither Drive nor
    the disk. *)
Theorem main_stops_when_auth_fails (e : Env) (s : State) (urls : list string) :
  fst (get_sitemap_urls e SITEMAP_URL s) = Ok urls ->
  auth_ok e = false ->
  main e s = (Raise AuthError, s).
Proof.
  intros Hurls Hauth. unfold main, bind, authenticate_drive.
  pose proof (get_sitemap_urls_state e SITEMAP_URL s) as Hs.
  destruct (get_sitemap_urls e SITEMAP_URL s) as [r s0].
  cbn [fst snd] in *. subst r s0. now rewrite Hauth.
Qed.

Lemma main_stops_when_auth_fails_witness :
  let e := {| http_get := Scenario.site; urljoin := fun _ ref => Some ref;
              guess_type := fun _ => None; open_ok := fun _ => true;
              auth_ok := false; list_ok := true; mkdir_ok := true;
              upload_ok := fun _ _ => true; delete_ok := fun _ => true |} in
  main e (Scenario.drive [Scenario.old_pdf] 10)
  = (Raise AuthError, Scenario.drive [Scenario.old_pdf] 10).
Proof.
  intros e.
  apply (main_stops_when_auth_fails e (Scenario.drive [Scenario.old_pdf] 10)
           [Scenario.page_a]).
  - reflexivity.
  - reflexivity.
Defined.

(** X18.  No page and no document can stop a run: once the sitemap has been read
    and Drive answers (credentials, folder, listing, deletions), [main]
    returns normally whatever the pages and the documents do: unreachable
    pages, broken links, failed downloads, rejected uploads. *)
Theorem pages_and_documents_never_stop_the_run (e : Env) (s : State)
    (urls : list string) :
  fst (get_sitemap_urls e SITEMAP_URL s) = Ok urls ->
  auth_ok e = true ->
  list_ok e = true ->
  drive_folder s = true \/ mkdir_ok e = true ->
  (forall id, delete_ok e id = true) ->
  fst (main e s) = Ok tt.
Proof.
  intros Hurls Hauth Hlist Hready Hdel.
  pose proof (get_sitemap_urls_state e SITEMAP_URL s) as Hs.
  destruct (folder_ready e s Hlist Hready) as (s1 & evs1 & Hfolder & _).
  destruct (pages_loop e urls (with_todays ∅ s1)) as (sL & Hloop & _).
  unfold main, bind, authenticate_drive, modify, get_state, ret.
  destruct (get_sitemap_urls e SITEMAP_URL s) as [r s0].
  cbn [fst snd] in *. subst r s0.
  rewrite Hauth, Hfolder, Hloop, clean_up_run by exact Hlist.
  rewrite accepted_prefix_all; [reflexivity|].
  apply Forall_forall. intros f _. apply Hdel.
Qed.

Lemma pages_and_documents_never_stop_the_run_witness :
  fst (main Scenario.doc2_rejected (Scenario.drive [Scenario.old_pdf] 10)) = Ok tt.
Proof.
  apply (pages_and_documents_never_stop_the_run Scenario.doc2_rejected
           (Scenario.drive [Scenario.old_pdf] 10) [Scenario.page_a]).
  - reflexivity.
  - reflexivity.
  - reflexivity.
  - left. reflexivity.
  - intros id. reflexivity.
Defined.

(** Where [main] stands when it calls [clean_up_old_files]: the folder holds
    the files it had and the files uploaded in this run, and
    [todays_filenames] holds the names of the latter. *)
Lemma main_reaches_reconciliation (e : Env) (s : State) (urls : list string) :
  fst (get_sitemap_urls e SITEMAP_URL s) = Ok urls ->
  auth_ok e = true ->
  list_ok e = true ->
  drive_folder s = true \/ mkdir_ok e = true ->
  exists sL new evs,
    main e s = clean_up_old_files e (todays_filenames sL) sL /\
    drive_files sL = (drive_files s ++ new)%list /\
    file_id <$> new = seq (drive_next_id s) (length new) /\
    drive_next_id sL = drive_next_id s + length new /\
    todays_filenames sL = list_to_set (file_name <$> new) /\
    trace sL = (trace s ++ evs)%list /\
    delete_calls evs = [].
Proof.
  intros Hurls Hauth Hlist Hready.
  pose proof (get_sitemap_urls_state e SITEMAP_URL s) as Hs.
  destruct (folder_ready e s Hlist Hready)
    as (s1 & evs1 & Hfolder & Hf1 & Hn1 & _ & Htr1 & Hdel1).
  destruct (pages_loop e urls (with_todays ∅ s1)) as (sL & Hloop & Hext).
  destruct Hext as (new & evs2 & HfL & Hid & HnL & HtL & _ & HtrL & Hdel2).
  unfold with_todays in HfL, Hid, HnL, HtL, HtrL.
  cbn [drive_folder drive_files drive_next_id disk todays_filenames trace]
    in HfL, Hid, HnL, HtL, HtrL.
  exists sL, new, (evs1 ++ evs2)%list.
  split; [|split; [|split; [|split; [|split; [|split]]]]].
  - unfold main, bind, authenticate_drive, modify, get_state, ret.
    destruct (get_sitemap_urls e SITEMAP_URL s) as [r s0].
    cbn [fst snd] in *. subst r s0.
    now rewrite Hauth, Hfolder, Hloop.
  - now rewrite HfL, Hf1.
  - now rewrite Hid, Hn1.
  - now rewrite HnL, Hn1.
  - rewrite HtL. set_solver.
  - now rewrite HtrL, Htr1, app_assoc.
  - now rewrite delete_calls_app, Hdel1, Hdel2.
Qed.

Lemma clean_up_keeps_todays (e : Env) (todays : gset string) (s : State) :
  todays_filenames (snd (clean_up_old_files e todays s)) = todays_filenames s.
Proof.
  destruct (list_ok e) eqn:Hlist.
  - rewrite clean_up_run by exact Hlist.
    now destruct (accepted_prefix e _) as [done rejected].
  - now rewrite clean_up_no_listing by exact Hlist.
Qed.

(** C5, amended.  A deletion that Drive rejects is not caught.  In a run of
    [main] that reaches reconciliation, let [f] be a file of the folder
    whose name was not uploaded in this run and whose deletion Drive
    rejects, the deletions asked for before it being accepted.  Then
    [clean_up_old_files] raises and so does [main]; the files listed before
    [f] whose name was not uploaded have been deleted; [f], every file
    listed after it, outdated or not, and the files uploaded in this run are
    in the folder; and the rejected request is the last one made. *)
Theorem rejected_delete_stops_reconciliation (e : Env) (s : State)
    (urls : list string) (before after : list RemoteFile) (f : RemoteFile) :
  fst (get_sitemap_urls e SITEMAP_URL s) = Ok urls ->
  auth_ok e = true ->
  list_ok e = true ->
  drive_folder s = true \/ mkdir_ok e = true ->
  drive_wf s ->
  drive_files s = (before ++ f :: after)%list ->
  file_name f ∉ todays_filenames (snd (main e s)) ->
  delete_ok e (file_id f) = false ->
  (forall g, g ∈ before -> file_name g ∉ todays_filenames (snd (main e s)) ->
             delete_ok e (file_id g) = true) ->
  exists sL s' new evs,
    drive_files sL = (drive_files s ++ new)%list /\
    todays_filenames sL = list_to_set (file_name <$> new) /\
    trace sL = (trace s ++ evs)%list /\
    delete_calls evs = [] /\
    clean_up_old_files e (todays_filenames sL) sL = (Raise HttpError, s') /\
    main e s = (Raise HttpError, s') /\
    trace s' = (trace sL
                ++ ((fun g => DeleteCall g true)
                      <$> outdated (todays_filenames sL) before)
                ++ [DeleteCall f false])%list /\
    drive_files s' = (kept (todays_filenames sL) before ++ f :: after ++ new)%list.
Proof.
  intros Hurls Hauth Hlist Hready Hwf Hfiles Hout Hrej Hok.
  destruct (main_reaches_reconciliation e s urls Hurls Hauth Hlist Hready)
    as (sL & new & evs & Hmain & HfL & Hid & HnL & HT & Htr & Hdel).
  assert (Hsame : todays_filenames (snd (main e s)) = todays_filenames sL)
    by (rewrite Hmain; apply clean_up_keeps_todays).
  rewrite Hsame in Hout, Hok.
  assert (HwfL : drive_wf sL).
  { now apply (appended_wf s sL new). }
  destruct (clean_up_rejected e (todays_filenames sL) sL before (after ++ new) f)
    as (s' & Hclean & Htrace' & Hfiles'); try assumption.
  - apply HwfL.
  - now rewrite HfL, Hfiles, <- app_assoc.
  - exists sL, s', new, evs. rewrite Hmain. repeat split; assumption.
Qed.

Lemma rejected_delete_stops_reconciliation_witness :
  let e := Scenario.delete_7_rejected in
  let s := Scenario.drive [Scenario.old_doc2; Scenario.stale_pdf;
                           Scenario.old_pdf; Scenario.older_pdf] 10 in
  exists sL s' new evs,
    drive_files sL = (drive_files s ++ new)%list /\
    todays_filenames sL = list_to_set (file_name <$> new) /\
    trace sL = (trace s ++ evs)%list /\
    delete_calls evs = [] /\
    clean_up_old_files e (todays_filenames sL) sL = (Raise HttpError, s') /\
    main e s = (Raise HttpError, s') /\
    trace s' = (trace sL
                ++ ((fun g => DeleteCall g true)
                      <$> outdated (todays_filenames sL)
                            [Scenario.old_doc2; Scenario.stale_pdf])
                ++ [DeleteCall Scenario.old_pdf false])%list /\
    drive_files s' = (kept (todays_filenames sL)
                           [Scenario.old_doc2; Scenario.stale_pdf]
                      ++ Scenario.old_pdf :: [Scenario.older_pdf] ++ new)%list.
Proof.
  intros e s.
  apply (rejected_delete_stops_reconciliation e s [Scenario.page_a]
           [Scenario.old_doc2; Scenario.stale_pdf] [Scenario.older_pdf]
           Scenario.old_pdf).
  - reflexivity.
  - reflexivity.
  - reflexivity.
  - left. reflexivity.
  - split; [concrete_nodup|]. repeat constructor.
  - reflexivity.
  - apply (bool_decide_unpack _). vm_compute. exact I.
  - reflexivity.
  - intros g Hg _. apply elem_of_cons in Hg as [->|Hg]; [reflexivity|].
    apply list_elem_of_singleton in Hg as ->. reflexivity.
Defined.

(** The same run, computed: [stale.pdf] is deleted, the deletion of
    [old.pdf] is rejected, and [older.pdf], as outdated as the two, is never
    asked to be deleted; the [doc2.pdf] of an earlier run stays beside the
    two uploads. *)
Example rejected_delete_scenario :
  let run := main Scenario.delete_7_rejected
               (Scenario.drive [Scenario.old_doc2; Scenario.stale_pdf;
                                Scenario.old_pdf; Scenario.older_pdf] 10) in
  fst run = Raise HttpError /\
  delete_calls (trace (snd run)) = [Scenario.stale_pdf; Scenario.old_pdf] /\
  take 3 (drive_files (snd run))
  = [Scenario.old_doc2; Scenario.old_pdf; Scenario.older_pdf] /\
  file_id <$> drop 3 (drive_files (snd run)) = [10; 11].
Proof. repeat split; vm_compute; reflexivity. Qed.

(** The scenario of the specification: the upload of [doc2.pdf] is rejected
    while [doc1.pdf] goes through; the [doc2.pdf] of an earlier run is
    deleted, and the staging file of [doc2.pdf] is left on disk. *)
Example rejected_upload_scenario :
  let s' := snd (main Scenario.doc2_rejected
                   (Scenario.drive [Scenario.old_doc2] 10)) in
  drive_files s' = [{| file_id := 10; file_name := "doc1.pdf" |}] /\
  delete_calls (trace s') = [Scenario.old_doc2] /\
  elements (disk s') = ["./downloads/doc2.pdf"].
Proof. repeat split; vm_compute; reflexivity. Qed.
